(** * Portfolio Aggregator, Python service: a shallow embedding of [main.py]

    The service has three pipelines: the content extractor ([scrape_url]),
    the transcript resolver ([get_youtube_transcript], with the
    video-identifier parser [extract_video_id]) and the batch orchestrator
    ([get_youtube_transcripts_batch]).

    Modelling conventions.
    - A Python [str] is a [string]; a character is an [ascii].
    - A Python function that may raise returns an [Outcome]: either
      [Returns v] or [Raises e].  [try ... except] is [try_except], whose
      clauses are tried in order and which lets the exception through when
      no clause applies.
    - The external collaborators (HTTP client, markup parser, selector
      engine, transcript provider) are the fields of a [World]; their answers
      are functions of their arguments, so external content is fixed during
      a request. *)

From Stdlib Require Import List String Ascii Bool Arith NArith Lia.
From Stdlib Require Import DecimalString.
Import ListNotations.

Local Open Scope string_scope.
Local Open Scope list_scope.

(** ** Python strings *)

Module PyStr.

(** [sep.join(parts)] *)
Definition join (sep : string) (parts : list string) : string :=
  String.concat sep parts.

(** [s[:n]] *)
Fixpoint slice_to (n : N) (s : string) : string :=
  match s with
  | String c s' =>
      if N.eqb n 0 then EmptyString else String c (slice_to (N.pred n) s')
  | EmptyString => EmptyString
  end.

(** [s[n:]] *)
Fixpoint slice_from (n : nat) (s : string) : string :=
  match n, s with
  | S n', String _ s' => slice_from n' s'
  | _, _ => s
  end.

(** [c.isspace()] on the code points below 256. *)
Definition isspace (c : ascii) : bool :=
  let n := nat_of_ascii c in
  (((9 <=? n) && (n <=? 13)) || ((28 <=? n) && (n <=? 32))
   || (n =? 133) || (n =? 160))%nat.

(** [s.lstrip()] *)
Fixpoint lstrip (s : string) : string :=
  match s with
  | String c s' => if isspace c then lstrip s' else s
  | EmptyString => EmptyString
  end.

(** [s.rstrip()] *)
Fixpoint rstrip (s : string) : string :=
  match s with
  | String c s' =>
      match rstrip s' with
      | EmptyString => if isspace c then EmptyString else String c EmptyString
      | r => String c r
      end
  | EmptyString => EmptyString
  end.

(** [s.strip()] *)
Definition strip (s : string) : string := rstrip (lstrip s).

(** The string of one line feed. *)
Definition newline : string := String "010"%char EmptyString.

(** [bool(s)] *)
Definition truthy (s : string) : bool :=
  match s with EmptyString => false | _ => true end.

(** [str(n)] for a non-negative integer. *)
Definition of_nat (n : nat) : string :=
  NilEmpty.string_of_uint (Nat.to_uint n).

(** Every character of [s] satisfies [p]. *)
Fixpoint all_chars (p : ascii -> bool) (s : string) : bool :=
  match s with
  | String c s' => p c && all_chars p s'
  | EmptyString => true
  end.

(** [s.startswith(p)], returning what follows the prefix. *)
Fixpoint after_prefix (p s : string) : option string :=
  match p, s with
  | EmptyString, _ => Some s
  | String a p', String b s' =>
      if Ascii.eqb a b then after_prefix p' s' else None
  | String _ _, EmptyString => None
  end.

End PyStr.

(** ** Exceptions and results *)

(** The exceptions the service can meet, all subclasses of [Exception].
    [OtherException] stands for every class the handlers do not name
    (transport and timeout errors of the HTTP client, selector syntax
    errors, provider errors other than the two imported ones, ...). *)
Inductive exn : Type :=
| ValueError (msg : string)
| HTTPStatusError (msg : string) (status_code : nat)
| TranscriptsDisabled (msg : string)
| NoTranscriptFound (msg : string)
| OtherException (class_name msg : string).

(** [str(e)] *)
Definition str_of_exn (e : exn) : string :=
  match e with
  | ValueError m => m
  | HTTPStatusError m _ => m
  | TranscriptsDisabled m => m
  | NoTranscriptFound m => m
  | OtherException _ m => m
  end.

(** [isinstance(e, C)] for the classes named in [except] clauses. *)
Definition is_ValueError (e : exn) : bool :=
  match e with ValueError _ => true | _ => false end.
Definition is_HTTPStatusError (e : exn) : bool :=
  match e with HTTPStatusError _ _ => true | _ => false end.
Definition is_TranscriptsDisabled (e : exn) : bool :=
  match e with TranscriptsDisabled _ => true | _ => false end.
Definition is_NoTranscriptFound (e : exn) : bool :=
  match e with NoTranscriptFound _ => true | _ => false end.
Definition is_Exception (e : exn) : bool := true.

Inductive Outcome (A : Type) : Type :=
| Returns (a : A)
| Raises (e : exn).
Arguments Returns {A} a.
Arguments Raises {A} e.

Definition bind {A B : Type} (c : Outcome A) (k : A -> Outcome B) : Outcome B :=
  match c with
  | Returns a => k a
  | Raises e => Raises e
  end.

Notation "x <- c ;; k" := (bind c (fun x => k))
  (at level 61, c at next level, right associativity).

(** One [except C as e: handler] clause. *)
Definition except_clause (A : Type) : Type := ((exn -> bool) * (exn -> Outcome A))%type.

(** The clauses are tried in order; with none applicable the exception
    goes on to the caller. *)
Fixpoint dispatch {A : Type} (clauses : list (except_clause A)) (e : exn) : Outcome A :=
  match clauses with
  | [] => Raises e
  | (catches, handler) :: rest =>
      if catches e then handler e else dispatch rest e
  end.

Definition try_except {A : Type} (body : Outcome A) (clauses : list (except_clause A)) : Outcome A :=
  match body with
  | Returns a => Returns a
  | Raises e => dispatch clauses e
  end.

(** ** Video-identifier parser *)

Module VideoId.

(** The character class [[a-zA-Z0-9_-]]. *)
Definition is_id_char (c : ascii) : bool :=
  let n := nat_of_ascii c in
  (((97 <=? n) && (n <=? 122)) || ((65 <=? n) && (n <=? 90))
   || ((48 <=? n) && (n <=? 57)) || (n =? 95) || (n =? 45))%nat.

(** [[a-zA-Z0-9_-]{n}] at the start of [s]: the matched text and the rest. *)
Fixpoint id_chars (n : nat) (s : string) : option (string * string) :=
  match n with
  | 0 => Some (EmptyString, s)
  | S n' =>
      match s with
      | String c s' =>
          if is_id_char c then
            match id_chars n' s' with
            | Some (g, rest) => Some (String c g, rest)
            | None => None
            end
          else None
      | EmptyString => None
      end
  end.

(** The alternatives of [(?:v=|\/v\/|youtu\.be\/|\/embed\/)], in order. *)
Definition markers : list string := ["v="; "/v/"; "youtu.be/"; "/embed/"].

(** One alternative followed by the group, at the start of [s]. *)
Definition marker_then_id (m s : string) : option string :=
  match PyStr.after_prefix m s with
  | Some r => option_map fst (id_chars 11 r)
  | None => None
  end.

(** The first pattern at the start of [s]: the alternatives are tried
    from left to right, the next one when the group fails. *)
Fixpoint alternatives (ms : list string) (s : string) : option string :=
  match ms with
  | [] => None
  | m :: ms' =>
      match marker_then_id m s with
      | Some g => Some g
      | None => alternatives ms' s
      end
  end.

Definition embedded_at (s : string) : option string := alternatives markers s.

(** [re.search] of an unanchored pattern: the leftmost start position
    at which the pattern matches, the end of the string included. *)
Fixpoint re_search (at_start : string -> option string) (s : string) : option string :=
  match at_start s with
  | Some g => Some g
  | None =>
      match s with
      | String _ s' => re_search at_start s'
      | EmptyString => None
      end
  end.

(** [$] without [re.MULTILINE]: the end of the string, or just before a
    newline that ends the string. *)
Definition at_dollar (rest : string) : bool :=
  match rest with
  | EmptyString => true
  | String c EmptyString => Ascii.eqb c "010"%char
  | _ => false
  end.

(** [re.search(r"(?:v=|\/v\/|youtu\.be\/|\/embed\/)([a-zA-Z0-9_-]{11})", url)],
    group 1. *)
Definition search_embedded (url : string) : option string :=
  re_search embedded_at url.

(** [re.search(r"^([a-zA-Z0-9_-]{11})$", url)], group 1: [^] holds at
    position 0 only. *)
Definition search_bare (url : string) : option string :=
  match id_chars 11 url with
  | Some (g, rest) => if at_dollar rest then Some g else None
  | None => None
  end.

(** An identifier: eleven characters of the class. *)
Definition is_video_id (s : string) : bool :=
  (String.length s =? 11)%nat && PyStr.all_chars is_id_char s.

Definition patterns : list (string -> option string) :=
  [search_embedded; search_bare].

(** The [for pattern in patterns] loop. *)
Fixpoint first_match (ps : list (string -> option string)) (url : string) : option string :=
  match ps with
  | [] => None
  | p :: ps' =>
      match p url with
      | Some g => Some g
      | None => first_match ps' url
      end
  end.

Definition extract_video_id (url : string) : Outcome string :=
  match first_match patterns url with
  | Some g => Returns g
  | None => Raises (ValueError ("Could not extract video ID from: " ++ url)%string)
  end.

End VideoId.

(** ** Parsed markup *)

Module Dom.

(** A parsed document.  Its strings are of three sorts: text of the two
    classes every element reads ([NavigableString], [CData]); the
    strings no element reads (comments, doctype, ...); and the text the
    parser keeps in a class of its own because it stands inside an
    [rt], [rp], [style], [script] or [template] element, here with the
    name of that element.  The document object itself is a [Tag] named
    ["[document]"]. *)
#[local] Unset Elimination Schemes.
Inductive node : Type :=
| NavigableString (s : string)
| Comment (s : string)
| ContainerString (container : string) (s : string)
| Tag (name : string) (attrs : list (string * string)) (contents : list node).
#[local] Set Elimination Schemes.

(** Induction on a document: an element has the property when all its
    contents have it. *)
Definition node_induction (P : node -> Prop)
    (text_case : forall s, P (NavigableString s))
    (comment_case : forall s, P (Comment s))
    (container_case : forall k s, P (ContainerString k s))
    (tag_case : forall nm at_ cs, Forall P cs -> P (Tag nm at_ cs)) :
    forall n, P n :=
  fix go (n : node) : P n :=
    match n with
    | NavigableString s => text_case s
    | Comment s => comment_case s
    | ContainerString k s => container_case k s
    | Tag nm at_ cs =>
        tag_case nm at_ cs
          ((fix all (l : list node) : Forall P l :=
              match l with
              | [] => Forall_nil P
              | c :: l' => Forall_cons c (go c) (all l')
              end) cs)
    end.

(** [n.descendants]: everything below [n], in document order. *)
Fixpoint descendants (n : node) : list node :=
  match n with
  | Tag _ _ cs => flat_map (fun c => c :: descendants c) cs
  | _ => []
  end.

Definition mem (x : string) (l : list string) : bool :=
  existsb (String.eqb x) l.

(** An element whose name is one of [names]. *)
Definition named (names : list string) (n : node) : bool :=
  match n with
  | Tag nm _ _ => mem nm names
  | _ => false
  end.

(** [n.find_all(names)], also written [n(names)]. *)
Definition find_all (names : list string) (n : node) : list node :=
  filter (named names) (descendants n).

(** [n.find(name)] *)
Definition find (name : string) (n : node) : option node :=
  hd_error (find_all [name] n).

(** Where a descendant sits: the child indices from the root down.  An
    element of the parsed document is known by its place in it. *)
Definition path : Type := list nat.

Fixpoint path_eqb (p q : path) : bool :=
  match p, q with
  | [], [] => true
  | i :: p', j :: q' => Nat.eqb i j && path_eqb p' q'
  | _, _ => false
  end.

(** The descendants of [n] with their paths, in document order. *)
Fixpoint walk (here : path) (n : node) : list (path * node) :=
  match n with
  | Tag _ _ cs =>
      (fix children (i : nat) (l : list node) : list (path * node) :=
         match l with
         | [] => []
         | c :: l' =>
             (here ++ [i], c) :: walk (here ++ [i]) c ++ children (S i) l'
         end) 0 cs
  | _ => []
  end.

(** [n(names)] as the loop holds it: the elements found, by their
    places, in document order. *)
Definition find_all_refs (names : list string) (n : node) : list path :=
  map fst (filter (fun pc => named names (snd pc)) (walk [] n)).

(** [el.decompose()]: the element is taken out of its parent, with all
    below it.  The state of the document is the list of the elements
    taken out so far; taking out an element that went with an
    ancestor changes nothing in what is left. *)
Definition decompose (taken : list path) (el : path) : list path := el :: taken.

Definition is_taken (taken : list path) (p : path) : bool :=
  existsb (path_eqb p) taken.

(** The document [n] without the elements taken out. *)
Fixpoint remaining (taken : list path) (here : path) (n : node) : node :=
  match n with
  | Tag nm at_ cs =>
      Tag nm at_
        ((fix children (i : nat) (l : list node) : list node :=
            match l with
            | [] => []
            | c :: l' =>
                if is_taken taken (here ++ [i])
                then children (S i) l'
                else remaining taken (here ++ [i]) c :: children (S i) l'
            end) 0 cs)
  | _ => n
  end.

(** [for el in n(names): el.decompose()], and the document after it. *)
Definition decompose_found (names : list string) (n : node) : node :=
  remaining (fold_left decompose (find_all_refs names n) []) [] n.

(** [tag.string] *)
Fixpoint string_of (n : node) : option string :=
  match n with
  | NavigableString s => Some s
  | Comment s => Some s
  | ContainerString _ s => Some s
  | Tag _ _ (c :: nil) => string_of c
  | Tag _ _ _ => None
  end.

(** The names of the elements whose text the parser keeps in a class of
    its own. *)
Definition string_containers : list string :=
  ["rt"; "rp"; "style"; "script"; "template"].

(** [tag.interesting_string_types], the classes [get_text] reads on the
    element: [None] for the two default classes, [Some k] for the class
    of the container [k] alone. *)
Definition interesting_string_types (n : node) : option string :=
  match n with
  | Tag nm _ _ => if mem nm string_containers then Some nm else None
  | _ => None
  end.

(** A string node as read for the classes [types]. *)
Definition read (types : option string) (n : node) : list string :=
  match n, types with
  | NavigableString s, None => [s]
  | ContainerString k s, Some k' => if String.eqb k k' then [s] else []
  | _, _ => []
  end.

(** The strings of the classes [types] below [n], in document order. *)
Fixpoint strings_of_types (types : option string) (n : node) : list string :=
  match n with
  | Tag _ _ cs => flat_map (strings_of_types types) cs
  | _ => read types n
  end.

(** The strings [get_text] reads on [n]. *)
Definition strings (n : node) : list string :=
  strings_of_types (interesting_string_types n) n.

(** [n._all_strings(strip=True)]: each string stripped, the empty ones
    left out. *)
Definition stripped_strings (n : node) : list string :=
  filter PyStr.truthy (map PyStr.strip (strings n)).

(** [n.get_text(separator=sep, strip=True)] *)
Definition get_text (sep : string) (n : node) : string :=
  PyStr.join sep (stripped_strings n).

(** A compiled selector: whether the element at a path of a document
    matches. *)
Definition matcher : Type := node -> path -> bool.

Definition is_tag (n : node) : bool :=
  match n with Tag _ _ _ => true | _ => false end.

(** [soup.select] with a compiled selector: the descendants are visited
    in document order and the matching elements kept. *)
Definition select_with (m : matcher) (root : node) : list node :=
  map snd (filter (fun pc => is_tag (snd pc) && m root (fst pc)) (walk [] root)).

(** *** For stating what the loop of [decompose_found] leaves

    The document without the elements named in [names] and all below
    them. *)
Fixpoint decompose_all (names : list string) (n : node) : node :=
  match n with
  | Tag nm at_ cs =>
      Tag nm at_
        (flat_map (fun c => if named names c then [] else [decompose_all names c]) cs)
  | _ => n
  end.

(** The loops over the contents of an element, by themselves. *)
Definition walk_children (here : path) : nat -> list node -> list (path * node) :=
  fix children (i : nat) (l : list node) : list (path * node) :=
    match l with
    | [] => []
    | c :: l' =>
        (here ++ [i], c) :: walk (here ++ [i]) c ++ children (S i) l'
    end.

Definition remaining_children (taken : list path) (here : path) :
    nat -> list node -> list node :=
  fix children (i : nat) (l : list node) : list node :=
    match l with
    | [] => []
    | c :: l' =>
        if is_taken taken (here ++ [i])
        then children (S i) l'
        else remaining taken (here ++ [i]) c :: children (S i) l'
    end.



(** [l] is [l'] with some elements left out, the order kept. *)
Inductive subseq {A : Type} : list A -> list A -> Prop :=
| subseq_nil : subseq [] []
| subseq_skip x l l' : subseq l l' -> subseq l (x :: l')
| subseq_keep x l l' : subseq l l' -> subseq (x :: l) (x :: l').

End Dom.

(** ** Transcript provider *)

Module Provider.

(** One entry of a fetched transcript;  the service reads [text] only. *)
Record Cue : Type := mkCue { text : string; start : nat; duration : nat }.

(** A track.  [fetch] is what [transcript.fetch()] gives. *)
Record Transcript : Type := mkTranscript {
  language_code : string;
  is_generated : bool;
  fetch : Outcome (list Cue)
}.

(** What the resolver uses of the object [list_transcripts] returns. *)
Record TranscriptList : Type := mkTranscriptList {
  find_transcript : list string -> Outcome Transcript;
  find_generated_transcript : list string -> Outcome Transcript;
  iter : list Transcript
}.

(** *** The provider library's own transcript list

    The library keeps two dictionaries from language code to track, one
    for the manually created tracks and one for the generated ones. *)

Definition dict : Type := list (string * Transcript).

Fixpoint dict_get (d : dict) (k : string) : option Transcript :=
  match d with
  | [] => None
  | (k', v) :: d' => if String.eqb k k' then Some v else dict_get d' k
  end.

(** [d[k] = v]: a key keeps its place, a new key goes last. *)
Fixpoint dict_set (d : dict) (k : string) (v : Transcript) : dict :=
  match d with
  | [] => [(k, v)]
  | (k', v') :: d' =>
      if String.eqb k k' then (k', v) :: d' else (k', v') :: dict_set d' k v
  end.

Definition values (d : dict) : list Transcript := map snd d.

Record Captions : Type := mkCaptions {
  manually_created : dict;
  generated : dict
}.

(** The list is built from the tracks of the video in the order the
    provider reports them. *)
Fixpoint build (tracks : list Transcript) (acc : Captions) : Captions :=
  match tracks with
  | [] => acc
  | t :: rest =>
      build rest
        (if is_generated t
         then mkCaptions (manually_created acc)
                         (dict_set (generated acc) (language_code t) t)
         else mkCaptions (dict_set (manually_created acc) (language_code t) t)
                         (generated acc))
  end.

Definition no_captions : Captions := mkCaptions [] [].

(** The inner loop of the library's lookup: the dictionaries in order. *)
Fixpoint lookup_in (dicts : list dict) (code : string) : option Transcript :=
  match dicts with
  | [] => None
  | d :: dicts' =>
      match dict_get d code with
      | Some t => Some t
      | None => lookup_in dicts' code
      end
  end.

(** The library's lookup: the codes in order, for each code the
    dictionaries in order; [NoTranscriptFound] when nothing is found. *)
Fixpoint lookup (dicts : list dict) (codes : list string) : option Transcript :=
  match codes with
  | [] => None
  | code :: codes' =>
      match lookup_in dicts code with
      | Some t => Some t
      | None => lookup dicts codes'
      end
  end.

Definition found_or_raise (video_id : string) (r : option Transcript) : Outcome Transcript :=
  match r with
  | Some t => Returns t
  | None => Raises (NoTranscriptFound ("No transcripts were found for " ++ video_id)%string)
  end.

Definition library_list (video_id : string) (c : Captions) : TranscriptList :=
  {| find_transcript := fun codes =>
       found_or_raise video_id (lookup [manually_created c; generated c] codes);
     find_generated_transcript := fun codes =>
       found_or_raise video_id (lookup [generated c] codes);
     iter := values (manually_created c) ++ values (generated c) |}.

(** *** For stating what the lookups find *)

(** The tracks of one kind among [tracks] with a given code. *)
Definition track_of (tracks : list Transcript) (kind : bool) (code : string)
    (t : Transcript) : Prop :=
  In t tracks /\ is_generated t = kind /\ language_code t = code.

Definition dict_of (kind : bool) (c : Captions) : dict :=
  if kind then generated c else manually_created c.

End Provider.

(** ** Request and response models *)

Module ScrapeRequest.
Record t : Type := mk { url : string; selector : option string }.
End ScrapeRequest.

Module ScrapeResponse.
Record t : Type := mk {
  url : string;
  title : option string;
  content : string;
  success : bool;
  error : option string
}.
End ScrapeResponse.

Module TranscriptRequest.
Record t : Type := mk { url : string; languages : list string }.
End TranscriptRequest.

Module TranscriptResponse.
Record t : Type := mk {
  video_id : string;
  title : option string;
  transcript : string;
  language : string;
  success : bool;
  error : option string
}.
End TranscriptResponse.

Module BatchTranscriptRequest.
Record t : Type := mk { urls : list string; languages : list string }.
End BatchTranscriptRequest.

(** The dictionary [{"results": results, "total": len(results)}]. *)
Module BatchResponse.
Record t : Type := mk { results : list TranscriptResponse.t; total : nat }.
End BatchResponse.

(** ** The external collaborators *)

Module Http.

Record Response : Type := mkResponse { status_code : nat; text : string }.

(** [response.raise_for_status()]: only a 2xx status passes. *)
Definition raise_for_status (r : Response) : Outcome unit :=
  if ((200 <=? status_code r) && (status_code r <=? 299))%nat
  then Returns tt
  else Raises (HTTPStatusError
                 ("Status " ++ PyStr.of_nat (status_code r))%string (status_code r)).

End Http.

Record World : Type := mkWorld {
  (** [client.get(url)], with the timeout, redirects and header of the source *)
  http_get : string -> Outcome Http.Response;
  (** [BeautifulSoup(text, "html.parser")] *)
  html_parser : string -> Outcome Dom.node;
  (** the selector engine reading a selector *)
  css_compile : string -> Outcome Dom.matcher;
  (** [YouTubeTranscriptApi.list_transcripts(video_id)] *)
  list_transcripts : string -> Outcome Provider.TranscriptList
}.

(** ** Content extractor *)

Definition NON_CONTENT : list string := ["script"; "style"; "nav"; "footer"; "header"].

Definition CONTENT_LIMIT : N := 50000.

(** [soup.select(selector)] *)
Definition select (w : World) (selector : string) (soup : Dom.node) : Outcome (list Dom.node) :=
  m <- css_compile w selector ;;
  Returns (Dom.select_with m soup).

(** [a or b] on values that are [None] or an element (an element is
    always true). *)
Definition or_else (a b : option Dom.node) : option Dom.node :=
  match a with
  | Some x => Some x
  | None => b
  end.

(** [if request.selector]: a selector that is given and not empty. *)
Definition given_selector (request : ScrapeRequest.t) : option string :=
  match ScrapeRequest.selector request with
  | Some s => if PyStr.truthy s then Some s else None
  | None => None
  end.

(** The part of [scrape_url] from the parsed document to the content. *)
Definition extract_content (w : World) (request : ScrapeRequest.t) (soup : Dom.node) : Outcome string :=
  match given_selector request with
  | Some sel =>
      elements <- select w sel soup ;;
      Returns (PyStr.join PyStr.newline (map (Dom.get_text "") elements))
  | None =>
      let main := or_else (Dom.find "main" soup)
                    (or_else (Dom.find "article" soup) (Dom.find "body" soup)) in
      Returns (match main with
               | Some m => Dom.get_text PyStr.newline m
               | None => ""
               end)
  end.

(** The body of the [try] of [scrape_url]. *)
Definition scrape_try (w : World) (request : ScrapeRequest.t) : Outcome ScrapeResponse.t :=
  response <- http_get w (ScrapeRequest.url request) ;;
  _ <- Http.raise_for_status response ;;
  parsed <- html_parser w (Http.text response) ;;
  let soup := Dom.decompose_found NON_CONTENT parsed in
  let title :=
    match Dom.find "title" soup with
    | Some t => Dom.string_of t
    | None => None
    end in
  content <- extract_content w request soup ;;
  Returns (ScrapeResponse.mk (ScrapeRequest.url request) title
             (PyStr.slice_to CONTENT_LIMIT content) true None).

Definition scrape_handlers (request : ScrapeRequest.t) : list (except_clause ScrapeResponse.t) :=
  [ (is_HTTPStatusError, fun e =>
       Returns (ScrapeResponse.mk (ScrapeRequest.url request) None "" false
                  (Some ("HTTP error " ++
                         PyStr.of_nat (match e with
                                       | HTTPStatusError _ code => code
                                       | _ => 0
                                       end))%string)));
    (is_Exception, fun e =>
       Returns (ScrapeResponse.mk (ScrapeRequest.url request) None "" false
                  (Some (str_of_exn e)))) ].

Definition scrape_url (w : World) (request : ScrapeRequest.t) : Outcome ScrapeResponse.t :=
  try_except (scrape_try w request) (scrape_handlers request).

(** ** Transcript resolver *)

(** A language for which the provider finds no track. *)
Definition not_found (tl : Provider.TranscriptList) (lang : string) : Prop :=
  exists m, Provider.find_transcript tl [lang] = Raises (NoTranscriptFound m).

(** The two variables of the search: [transcript] and [language_used]. *)
Definition search_state : Type := (option Provider.Transcript * string)%type.

(** [for lang in request.languages]: [break] at the first language
    found, [continue] on [NoTranscriptFound]. *)
Fixpoint search_preferred (tl : Provider.TranscriptList) (langs : list string) : Outcome search_state :=
  match langs with
  | [] => Returns (None, "")
  | lang :: rest =>
      try_except
        (t <- Provider.find_transcript tl [lang] ;;
         Returns (Some t, lang))
        [ (is_NoTranscriptFound, fun _ => search_preferred tl rest) ]
  end.

(** [for t in transcript_list: ...; break] *)
Definition first_available (tl : Provider.TranscriptList) (st : search_state) : search_state :=
  match Provider.iter tl with
  | t :: _ => (Some t, Provider.language_code t)
  | [] => st
  end.

(** [if not transcript:] with its [try] and [except NoTranscriptFound]. *)
Definition search_fallback (tl : Provider.TranscriptList) (langs : list string) (st : search_state) : Outcome search_state :=
  match fst st with
  | Some _ => Returns st
  | None =>
      try_except
        (t <- Provider.find_generated_transcript tl langs ;;
         Returns (Some t, "auto"))
        [ (is_NoTranscriptFound, fun _ => Returns (first_available tl st)) ]
  end.

(** The body of the [try] of [get_youtube_transcript]. *)
Definition transcript_try (w : World) (request : TranscriptRequest.t) : Outcome TranscriptResponse.t :=
  video_id <- VideoId.extract_video_id (TranscriptRequest.url request) ;;
  transcript_list <- list_transcripts w video_id ;;
  st <- search_preferred transcript_list (TranscriptRequest.languages request) ;;
  st <- search_fallback transcript_list (TranscriptRequest.languages request) st ;;
  match st with
  | (None, _) =>
      Returns (TranscriptResponse.mk video_id None "" "" false
                 (Some "No transcript available"))
  | (Some transcript, language_used) =>
      transcript_data <- Provider.fetch transcript ;;
      let full_text := PyStr.join " " (map Provider.text transcript_data) in
      Returns (TranscriptResponse.mk video_id None full_text language_used true None)
  end.

Definition failed (request : TranscriptRequest.t) (message : string) : TranscriptResponse.t :=
  TranscriptResponse.mk (TranscriptRequest.url request) None "" "" false (Some message).

Definition transcript_handlers (request : TranscriptRequest.t) : list (except_clause TranscriptResponse.t) :=
  [ (is_TranscriptsDisabled, fun _ =>
       Returns (failed request "Transcripts are disabled for this video"));
    (is_ValueError, fun e => Returns (failed request (str_of_exn e)));
    (is_Exception, fun e => Returns (failed request (str_of_exn e))) ].

Definition get_youtube_transcript (w : World) (request : TranscriptRequest.t) : Outcome TranscriptResponse.t :=
  try_except (transcript_try w request) (transcript_handlers request).

(** ** Batch orchestrator *)

(** [for url in request.urls], with the list [results] built so far. *)
Fixpoint batch_loop (w : World) (languages : list string) (urls : list string)
    (results : list TranscriptResponse.t) : Outcome (list TranscriptResponse.t) :=
  match urls with
  | [] => Returns results
  | url :: rest =>
      let transcript_request := TranscriptRequest.mk url languages in
      result <- get_youtube_transcript w transcript_request ;;
      batch_loop w languages rest (results ++ [result])
  end.

Definition get_youtube_transcripts_batch (w : World) (request : BatchTranscriptRequest.t) : Outcome BatchResponse.t :=
  results <- batch_loop w (BatchTranscriptRequest.languages request)
               (BatchTranscriptRequest.urls request) [] ;;
  Returns (BatchResponse.mk results (List.length results)).

(** ** Sample collaborators

    A small world on which the endpoints can be run. *)

Module Sample.

(** The node at a path below [n]. *)
Fixpoint node_at (n : Dom.node) (p : Dom.path) : option Dom.node :=
  match p with
  | [] => Some n
  | i :: p' =>
      match n with
      | Dom.Tag _ _ cs =>
          match nth_error cs i with
          | Some c => node_at c p'
          | None => None
          end
      | _ => None
      end
  end.

(** A selector engine that knows type selectors only: the selector is
    an element name. *)
Definition type_selector (name : string) : Dom.matcher :=
  fun root p =>
    match node_at root p with
    | Some el => Dom.named [name] el
    | None => false
    end.

Definition text (s : string) : Dom.node := Dom.NavigableString s.
Definition el (name : string) (contents : list Dom.node) : Dom.node :=
  Dom.Tag name [] contents.

Definition page : Dom.node :=
  el "[document]"
    [ el "html"
        [ el "head" [ el "title" [ text "News" ];
                      el "script" [ text "track()" ] ];
          el "body"
            [ el "header" [ el "h1" [ text "Site" ] ];
              el "h1" [ text " First " ];
              el "p" [ text "One "; el "b" [ text "two" ] ];
              el "h1" [ text "Second" ];
              el "h1" [ text "Third"; el "style" [ text "h1 {}" ] ];
              el "footer" [ text "Imprint" ] ] ] ].

Definition cues : list Provider.Cue :=
  [ Provider.mkCue "hello" 0 1500; Provider.mkCue "world" 1500 900 ].

Definition manual_en : Provider.Transcript :=
  Provider.mkTranscript "en" false (Returns cues).
Definition manual_de : Provider.Transcript :=
  Provider.mkTranscript "de" false (Returns cues).
Definition generated_en : Provider.Transcript :=
  Provider.mkTranscript "en" true (Returns cues).

(** A list whose single-code lookups find nothing while its lookup of
    generated tracks finds one. *)
Definition generated_only : Provider.TranscriptList :=
  Provider.mkTranscriptList
    (fun _ => Raises (NoTranscriptFound "none"))
    (fun _ => Returns generated_en)
    [generated_en].

Definition world : World :=
  {| http_get := fun url =>
       if String.eqb url "https://example.org/news"
       then Returns (Http.mkResponse 200 "<html>...</html>")
       else if String.eqb url "https://example.org/gone"
       then Returns (Http.mkResponse 404 "")
       else Raises (OtherException "ConnectError" "connection refused");
     html_parser := fun _ => Returns page;
     css_compile := fun selector => Returns (type_selector selector);
     list_transcripts := fun video_id =>
       if String.eqb video_id "dQw4w9WgXcQ"
       then Returns (Provider.library_list video_id
                       (Provider.build [manual_en] Provider.no_captions))
       else if String.eqb video_id "AAAAAAAAAAA"
       then Returns (Provider.library_list video_id
                       (Provider.build [] Provider.no_captions))
       else if String.eqb video_id "BBBBBBBBBBB"
       then Raises (TranscriptsDisabled "Subtitles are disabled for this video")
       else if String.eqb video_id "CCCCCCCCCCC"
       then Returns generated_only
       else if String.eqb video_id "DDDDDDDDDDD"
       then Returns (Provider.library_list video_id
                       (Provider.build [manual_de] Provider.no_captions))
       else if String.eqb video_id "EEEEEEEEEEE"
       then Returns (Provider.library_list video_id
                       (Provider.build [generated_en] Provider.no_captions))
       else Raises (OtherException "VideoUnavailable" "The video is no longer available") |}.

End Sample.

(** ** Further sample collaborators *)

Module Sample2.

(** A track the provider lists but cannot deliver. *)
Definition broken_es : Provider.Transcript :=
  Provider.mkTranscript "es" false
    (Raises (OtherException "RequestBlocked" "the provider refused the request")).

(** A list whose lookup of [fr] fails with a fault of the transport. *)
Definition faulty_list : Provider.TranscriptList :=
  Provider.mkTranscriptList
    (fun codes =>
       match codes with
       | code :: _ =>
           if String.eqb code "fr"
           then Raises (OtherException "ConnectError" "connection reset")
           else if String.eqb code "en"
           then Returns Sample.manual_en
           else Raises (NoTranscriptFound "none")
       | [] => Raises (NoTranscriptFound "none")
       end)
    (fun _ => Raises (NoTranscriptFound "none"))
    [Sample.manual_en].

Definition page_without_title : Dom.node :=
  Sample.el "[document]"
    [ Sample.el "html"
        [ Sample.el "body"
            [ Sample.el "nav" [ Sample.el "a" [ Sample.text "Home" ] ];
              Sample.el "p" [ Sample.text "Only text" ] ] ] ].

Definition world : World :=
  {| http_get := fun url =>
       if String.eqb url "https://example.org/plain"
       then Returns (Http.mkResponse 200 "<html>plain</html>")
       else if String.eqb url "https://example.org/moved"
       then Returns (Http.mkResponse 301 "")
       else Returns (Http.mkResponse 503 "");
     html_parser := fun _ => Returns page_without_title;
     css_compile := fun selector =>
       if String.eqb selector "p"
       then Returns (Sample.type_selector selector)
       else if String.eqb selector "table"
       then Returns (Sample.type_selector selector)
       else Raises (OtherException "SelectorSyntaxError" "Invalid character");
     list_transcripts := fun video_id =>
       if String.eqb video_id "GGGGGGGGGGG"
       then Returns (Provider.library_list video_id
                       (Provider.build [broken_es; Sample.manual_en] Provider.no_captions))
       else if String.eqb video_id "HHHHHHHHHHH"
       then Returns faulty_list
       else Raises (OtherException "VideoUnavailable" "The video is no longer available") |}.

End Sample2.

(** ** For stating which region is read *)



(** ** A sample page with text in classes of its own *)

Module Sample3.


(** A page as the parser gives it: the text inside [template] and [rt]
    is of the class of that element. *)
Definition page : Dom.node :=
  Sample.el "[document]"
    [ Sample.el "html"
        [ Sample.el "body"
            [ Sample.el "p" [ Sample.text "shown" ];
              Sample.el "template"
                [ Dom.ContainerString "template" "kept apart";
                  Sample.el "p" [ Dom.ContainerString "template" "inner" ] ];
              Sample.el "ruby"
                [ Sample.text "kanji";
                  Sample.el "rt" [ Dom.ContainerString "rt" "reading" ] ] ] ] ].

Definition world : World :=
  {| http_get := fun _ => Returns (Http.mkResponse 200 "<html>template</html>");
     html_parser := fun _ => Returns page;
     css_compile := fun selector => Returns (Sample.type_selector selector);
     list_transcripts := fun _ =>
       Raises (OtherException "VideoUnavailable" "The video is no longer available") |}.

End Sample3.

(** * Properties *)

(** ** Strings *)

Lemma append_assoc (a b c : string) : ((a ++ b) ++ c = a ++ (b ++ c))%string.
Proof. induction a as [|x a IH]; simpl; [reflexivity | now rewrite IH]. Qed.

Lemma append_empty_r (a : string) : (a ++ "")%string = a.
Proof. induction a as [|x a IH]; simpl; [reflexivity | now rewrite IH]. Qed.

Lemma length_append (a b : string) :
  String.length (a ++ b)%string = String.length a + String.length b.
Proof. induction a as [|x a IH]; simpl; [reflexivity | now rewrite IH]. Qed.

Lemma all_chars_append p (a b : string) :
  PyStr.all_chars p (a ++ b)%string = PyStr.all_chars p a && PyStr.all_chars p b.
Proof.
  induction a as [|x a IH]; simpl; [reflexivity|].
  now rewrite IH, andb_assoc.
Qed.

Lemma slice_to_length (s : string) :
  forall n, N.of_nat (String.length (PyStr.slice_to n s))
            = N.min n (N.of_nat (String.length s)).
Proof.
  induction s as [|c s IH]; intros n; simpl String.length.
  - simpl. lia.
  - simpl PyStr.slice_to. destruct (N.eqb_spec n 0) as [->|Hn].
    + simpl. lia.
    + simpl String.length. rewrite !Nat2N.inj_succ, IH. lia.
Qed.

Lemma slice_to_prefix (s : string) :
  forall n, exists rest, s = (PyStr.slice_to n s ++ rest)%string.
Proof.
  induction s as [|c s IH]; intros n.
  - now exists "".
  - simpl. destruct (N.eqb n 0).
    + now exists (String c s).
    + destruct (IH (N.pred n)) as [rest Hrest]. exists rest. simpl.
      now rewrite <- Hrest.
Qed.

Lemma slice_from_append (pre s : string) :
  PyStr.slice_from (String.length pre) (pre ++ s)%string = s.
Proof. induction pre as [|c pre IH]; simpl; [now destruct s | exact IH]. Qed.

Lemma after_prefix_append (m r : string) :
  PyStr.after_prefix m (m ++ r)%string = Some r.
Proof.
  induction m as [|c m IH]; simpl; [reflexivity|].
  now rewrite Ascii.eqb_refl.
Qed.

Lemma after_prefix_inv (m s r : string) :
  PyStr.after_prefix m s = Some r -> s = (m ++ r)%string.
Proof.
  revert s; induction m as [|c m IH]; intros s; simpl.
  - now intros [= ->].
  - destruct s as [|d s]; [discriminate|].
    destruct (Ascii.eqb c d) eqn:E; [|discriminate].
    apply Ascii.eqb_eq in E; subst d.
    intros H; apply IH in H; now subst s.
Qed.

(** ** The video-identifier parser *)

Section VideoIdFacts.
Import VideoId.

Lemma id_chars_append (g rest : string) :
  forall n, String.length g = n -> PyStr.all_chars is_id_char g = true ->
  id_chars n (g ++ rest)%string = Some (g, rest).
Proof.
  induction g as [|c g IH]; intros n Hn Hall; simpl in *; subst n.
  - reflexivity.
  - apply andb_true_iff in Hall as [Hc Hg].
    simpl. rewrite Hc, (IH _ eq_refl Hg). reflexivity.
Qed.

Lemma id_chars_inv (n : nat) :
  forall s g rest, id_chars n s = Some (g, rest) ->
  s = (g ++ rest)%string /\ String.length g = n
  /\ PyStr.all_chars is_id_char g = true.
Proof.
  induction n as [|n IH]; intros s g rest; simpl.
  - intros [= <- <-]. now repeat split.
  - destruct s as [|c s]; [discriminate|].
    destruct (is_id_char c) eqn:Hc; [|discriminate].
    destruct (id_chars n s) as [[g' rest']|] eqn:E; [|discriminate].
    intros [= <- <-].
    destruct (IH _ _ _ E) as (-> & Hlen & Hall).
    simpl. rewrite Hc, Hall, Hlen. now repeat split.
Qed.

Lemma is_video_id_spec (s : string) :
  is_video_id s = true <->
  String.length s = 11 /\ PyStr.all_chars is_id_char s = true.
Proof.
  unfold is_video_id. rewrite andb_true_iff, Nat.eqb_eq. tauto.
Qed.

Lemma id_chars_video_id (id rest : string) :
  is_video_id id = true -> id_chars 11 (id ++ rest)%string = Some (id, rest).
Proof.
  intros H; apply is_video_id_spec in H as [Hl Ha].
  now apply id_chars_append.
Qed.

Lemma marker_then_id_inv (m s g : string) :
  marker_then_id m s = Some g ->
  exists post, s = (m ++ g ++ post)%string /\ is_video_id g = true.
Proof.
  unfold marker_then_id.
  destruct (PyStr.after_prefix m s) as [r|] eqn:Hm; [|discriminate].
  destruct (id_chars 11 r) as [[g' post]|] eqn:Hg; [|discriminate].
  simpl; intros [= <-].
  apply after_prefix_inv in Hm.
  destruct (id_chars_inv _ _ _ _ Hg) as (-> & Hl & Ha).
  exists post; split; [assumption|].
  apply is_video_id_spec; now split.
Qed.

Lemma alternatives_inv (ms : list string) (s g : string) :
  alternatives ms s = Some g ->
  exists m post, In m ms /\ s = (m ++ g ++ post)%string /\ is_video_id g = true.
Proof.
  induction ms as [|m ms IH]; simpl; [discriminate|].
  destruct (marker_then_id m s) as [g'|] eqn:E.
  - intros [= <-]. destruct (marker_then_id_inv _ _ _ E) as (post & Hs & Hg).
    exists m, post; auto.
  - intros H; destruct (IH H) as (m' & post & Hin & Hs & Hg).
    exists m', post; auto.
Qed.

(** At one position at most one alternative can apply, so the
    identifier after a marker is what the pattern captures there. *)
Lemma embedded_at_marker (m id post : string) :
  In m markers -> is_video_id id = true ->
  embedded_at (m ++ id ++ post)%string = Some id.
Proof.
  intros Hm Hid. unfold embedded_at, markers in *.
  pose proof (id_chars_video_id id post Hid) as E.
  simpl in Hm.
  destruct Hm as [<-|[<-|[<-|[<-|[]]]]];
    cbn [alternatives marker_then_id PyStr.after_prefix append Ascii.eqb Bool.eqb];
    rewrite E; reflexivity.
Qed.

(** No marker consists of identifier characters only. *)
Lemma embedded_at_id_chars (s : string) :
  PyStr.all_chars is_id_char s = true -> embedded_at s = None.
Proof.
  intros Hall. destruct (embedded_at s) as [g|] eqn:E; [|reflexivity].
  apply alternatives_inv in E as (m & post & Hm & -> & _).
  rewrite all_chars_append in Hall. apply andb_true_iff in Hall as [Hmark _].
  simpl in Hm.
  destruct Hm as [<-|[<-|[<-|[<-|[]]]]]; vm_compute in Hmark; discriminate.
Qed.

Lemma re_search_hit (f : string -> option string) (s g : string) :
  f s = Some g -> re_search f s = Some g.
Proof. intros H; destruct s; simpl; now rewrite H. Qed.

Lemma re_search_skip (f : string -> option string) (pre s : string) :
  (forall k, k < String.length pre -> f (PyStr.slice_from k (pre ++ s)%string) = None) ->
  re_search f (pre ++ s)%string = re_search f s.
Proof.
  induction pre as [|c pre IH]; intros H; [reflexivity|].
  assert (H0 : f (String c (pre ++ s)%string) = None)
    by (apply (H 0); simpl; lia).
  simpl. rewrite H0.
  apply IH; intros k Hk. apply (H (S k)); simpl; lia.
Qed.

Lemma re_search_inv (f : string -> option string) (s g : string) :
  re_search f s = Some g ->
  exists pre rest, s = (pre ++ rest)%string /\ f rest = Some g
    /\ forall k, k < String.length pre -> f (PyStr.slice_from k s) = None.
Proof.
  induction s as [|c s IH]; simpl.
  - destruct (f "") eqn:E; [|discriminate]. intros [= ->].
    exists "", ""; repeat split; [assumption|]. simpl; intros; lia.
  - destruct (f (String c s)) eqn:E.
    + intros [= ->]. exists "", (String c s); repeat split; [assumption|].
      simpl; intros; lia.
    + intros H; destruct (IH H) as (pre & rest & -> & Hf & Hnone).
      exists (String c pre), rest; repeat split; [assumption|].
      intros [|k] Hk; [exact E|]. simpl in *. apply Hnone; lia.
Qed.

Lemma re_search_none (f : string -> option string) (s : string) :
  (forall k, f (PyStr.slice_from k s) = None) -> re_search f s = None.
Proof.
  induction s as [|c s IH]; intros H; simpl.
  - now rewrite (H 0 : f "" = None).
  - rewrite (H 0 : f (String c s) = None). apply IH; intros k. exact (H (S k)).
Qed.

Lemma all_chars_slice_from p (k : nat) (s : string) :
  PyStr.all_chars p s = true -> PyStr.all_chars p (PyStr.slice_from k s) = true.
Proof.
  revert s; induction k as [|k IH]; intros [|c s]; simpl; auto.
  intros H; apply andb_true_iff in H as [_ H]; auto.
Qed.

Lemma search_embedded_id_chars (s : string) :
  PyStr.all_chars is_id_char s = true -> search_embedded s = None.
Proof.
  intros H; apply re_search_none; intros k.
  apply embedded_at_id_chars, all_chars_slice_from, H.
Qed.

Lemma search_bare_video_id (id : string) :
  is_video_id id = true -> search_bare id = Some id.
Proof.
  intros H. unfold search_bare.
  rewrite <- (append_empty_r id) at 1.
  now rewrite (id_chars_video_id id "" H).
Qed.

Lemma extract_first_pattern (url g : string) :
  search_embedded url = Some g -> extract_video_id url = Returns g.
Proof. intros H; unfold extract_video_id; simpl; now rewrite H. Qed.

Lemma extract_second_pattern (url g : string) :
  search_embedded url = None -> search_bare url = Some g ->
  extract_video_id url = Returns g.
Proof. intros H1 H2; unfold extract_video_id; simpl; now rewrite H1, H2. Qed.

(** An identifier after the first place at which the embedded pattern
    applies is what the parser returns. *)
Lemma extract_after_first_marker (pre m id post : string) :
  In m markers -> is_video_id id = true ->
  (forall k, k < String.length pre ->
     embedded_at (PyStr.slice_from k (pre ++ m ++ id ++ post)%string) = None) ->
  extract_video_id (pre ++ m ++ id ++ post)%string = Returns id.
Proof.
  intros Hm Hid Hleft.
  apply extract_first_pattern. unfold search_embedded.
  rewrite re_search_skip by assumption.
  apply re_search_hit, embedded_at_marker; assumption.
Qed.

(** The usual forms of a video URL, with any identifier and anything
    after it. *)
Lemma extract_video_id_usual_urls (id rest : string) :
  is_video_id id = true ->
  extract_video_id ("https://www.youtube.com/watch?v=" ++ id ++ rest)%string = Returns id
  /\ extract_video_id ("https://www.youtube.com/v/" ++ id ++ rest)%string = Returns id
  /\ extract_video_id ("https://youtu.be/" ++ id ++ rest)%string = Returns id
  /\ extract_video_id ("https://www.youtube.com/embed/" ++ id ++ rest)%string = Returns id.
Proof.
  intros Hid. repeat apply conj.
  - apply (extract_after_first_marker "https://www.youtube.com/watch?" "v=" id rest);
      [simpl; auto | exact Hid |].
    intros k Hk. do 30 (destruct k as [|k]; [reflexivity|]). simpl in Hk; lia.
  - apply (extract_after_first_marker "https://www.youtube.com" "/v/" id rest);
      [simpl; auto | exact Hid |].
    intros k Hk. do 23 (destruct k as [|k]; [reflexivity|]). simpl in Hk; lia.
  - apply (extract_after_first_marker "https://" "youtu.be/" id rest);
      [simpl; auto | exact Hid |].
    intros k Hk. do 8 (destruct k as [|k]; [reflexivity|]). simpl in Hk; lia.
  - apply (extract_after_first_marker "https://www.youtube.com" "/embed/" id rest);
      [simpl; auto | exact Hid |].
    intros k Hk. do 23 (destruct k as [|k]; [reflexivity|]). simpl in Hk; lia.
Qed.

End VideoIdFacts.


(** ** Exceptions *)

Lemma bind_returns {A B : Type} (c : Outcome A) (k : A -> Outcome B) (a : A) :
  c = Returns a -> bind c k = k a.
Proof. now intros ->. Qed.

Lemma bind_raises {A B : Type} (c : Outcome A) (k : A -> Outcome B) (e : exn) :
  c = Raises e -> bind c k = Raises e.
Proof. now intros ->. Qed.

Lemma try_except_returns {A : Type} (body : Outcome A) clauses (a : A) :
  body = Returns a -> try_except body clauses = Returns a.
Proof. now intros ->. Qed.

Lemma try_except_raises {A : Type} (body : Outcome A) clauses (e : exn) :
  body = Raises e -> try_except body clauses = dispatch clauses e.
Proof. now intros ->. Qed.

(** ** The transcript resolver *)

(** What the three handlers of [get_youtube_transcript] answer. *)
Lemma transcript_handlers_answer (request : TranscriptRequest.t) (e : exn) :
  dispatch (transcript_handlers request) e =
  Returns (failed request
             (match e with
              | TranscriptsDisabled _ => "Transcripts are disabled for this video"
              | _ => str_of_exn e
              end)).
Proof. destruct e; reflexivity. Qed.

Lemma get_youtube_transcript_returned (w : World) (request : TranscriptRequest.t) r :
  transcript_try w request = Returns r ->
  get_youtube_transcript w request = Returns r.
Proof. apply try_except_returns. Qed.

Lemma get_youtube_transcript_raised (w : World) (request : TranscriptRequest.t) e :
  transcript_try w request = Raises e ->
  get_youtube_transcript w request =
  Returns (failed request
             (match e with
              | TranscriptsDisabled _ => "Transcripts are disabled for this video"
              | _ => str_of_exn e
              end)).
Proof.
  intros H. unfold get_youtube_transcript.
  rewrite (try_except_raises _ _ _ H). apply transcript_handlers_answer.
Qed.

Lemma search_preferred_skip tl lang rest :
  not_found tl lang ->
  search_preferred tl (lang :: rest) = search_preferred tl rest.
Proof. intros [m H]. simpl. now rewrite H. Qed.

Lemma search_preferred_found tl before lang after t :
  (forall l, In l before -> not_found tl l) ->
  Provider.find_transcript tl [lang] = Returns t ->
  search_preferred tl (before ++ lang :: after) = Returns (Some t, lang).
Proof.
  intros Hbefore Hfound. induction before as [|l before IH].
  - simpl. now rewrite Hfound.
  - rewrite <- app_comm_cons, search_preferred_skip by (apply Hbefore; now left).
    apply IH. intros l' Hl'. apply Hbefore. now right.
Qed.

Lemma search_preferred_none tl langs :
  (forall l, In l langs -> not_found tl l) ->
  search_preferred tl langs = Returns (None, "").
Proof.
  induction langs as [|l langs IH]; intros H; [reflexivity|].
  rewrite search_preferred_skip by (apply H; now left).
  apply IH. intros l' Hl'. apply H. now right.
Qed.

(** The resolver once the identifier is parsed and the tracks listed. *)
Lemma transcript_try_listed w request video_id tl :
  VideoId.extract_video_id (TranscriptRequest.url request) = Returns video_id ->
  list_transcripts w video_id = Returns tl ->
  transcript_try w request =
  (st <- search_preferred tl (TranscriptRequest.languages request) ;;
   st <- search_fallback tl (TranscriptRequest.languages request) st ;;
   match st with
   | (None, _) =>
       Returns (TranscriptResponse.mk video_id None "" "" false
                  (Some "No transcript available"))
   | (Some transcript, language_used) =>
       transcript_data <- Provider.fetch transcript ;;
       Returns (TranscriptResponse.mk video_id None
                  (PyStr.join " " (map Provider.text transcript_data))
                  language_used true None)
   end).
Proof. intros H1 H2. unfold transcript_try. now rewrite H1; simpl; rewrite H2. Qed.

Lemma transcript_try_selected w request video_id tl t lang cues :
  VideoId.extract_video_id (TranscriptRequest.url request) = Returns video_id ->
  list_transcripts w video_id = Returns tl ->
  search_preferred tl (TranscriptRequest.languages request) = Returns (Some t, lang) ->
  Provider.fetch t = Returns cues ->
  get_youtube_transcript w request =
  Returns (TranscriptResponse.mk video_id None
             (PyStr.join " " (map Provider.text cues)) lang true None).
Proof.
  intros H1 H2 H3 H4. apply get_youtube_transcript_returned.
  rewrite (transcript_try_listed _ _ _ _ H1 H2), H3. simpl. now rewrite H4.
Qed.

(** ** The provider library's transcript list *)

Section LibraryList.
Import Provider.

Lemma dict_get_set (d : dict) (k k' : string) (v : Transcript) :
  dict_get (dict_set d k v) k' =
  if String.eqb k' k then Some v else dict_get d k'.
Proof.
  induction d as [|[k0 v0] d IH]; simpl.
  - reflexivity.
  - destruct (String.eqb k k0) eqn:E; simpl.
    + apply String.eqb_eq in E; subst k0.
      now destruct (String.eqb k' k).
    + rewrite IH. destruct (String.eqb k' k0) eqn:E0; [|reflexivity].
      apply String.eqb_eq in E0; subst k0.
      destruct (String.eqb k' k) eqn:E1; [|reflexivity].
      apply String.eqb_eq in E1; subst k'.
      rewrite String.eqb_refl in E; discriminate.
Qed.

Lemma dict_of_build_cons kind t rest acc :
  dict_of kind (build (t :: rest) acc) =
  dict_of kind
    (build rest
       (if is_generated t
        then mkCaptions (manually_created acc)
                        (dict_set (generated acc) (language_code t) t)
        else mkCaptions (dict_set (manually_created acc) (language_code t) t)
                        (generated acc))).
Proof. reflexivity. Qed.

(** An entry of a built dictionary is a track of that kind and code,
    or was in the dictionary before. *)
Lemma build_get_sound kind tracks :
  forall acc code t,
    dict_get (dict_of kind (build tracks acc)) code = Some t ->
    track_of tracks kind code t \/ dict_get (dict_of kind acc) code = Some t.
Proof.
  induction tracks as [|t0 rest IH]; intros acc code t H.
  - now right.
  - rewrite dict_of_build_cons in H. apply IH in H as [(Hin & Hk & Hc)|H].
    + left; repeat split; [now right | assumption | assumption].
    + assert (Hset : forall d,
                 dict_get (dict_set d (language_code t0) t0) code = Some t ->
                 is_generated t0 = kind ->
                 track_of (t0 :: rest) kind code t \/ dict_get d code = Some t).
      { intros d Hd Hkind. rewrite dict_get_set in Hd.
        destruct (String.eqb code (language_code t0)) eqn:E; [|now right].
        apply String.eqb_eq in E. injection Hd as <-.
        left; repeat split; [now left | assumption | now symmetry]. }
      destruct (is_generated t0) eqn:G, kind; simpl in H;
        solve [ now right | now apply Hset ].
Qed.

Lemma build_get_keeps kind tracks :
  forall acc code,
    dict_get (dict_of kind acc) code <> None ->
    dict_get (dict_of kind (build tracks acc)) code <> None.
Proof.
  induction tracks as [|t0 rest IH]; intros acc code H; [exact H|].
  rewrite dict_of_build_cons. apply IH.
  destruct (is_generated t0), kind; simpl; try exact H;
    rewrite dict_get_set;
    (destruct (String.eqb code (language_code t0)); [discriminate | exact H]).
Qed.

Lemma build_get_complete kind tracks :
  forall acc code t,
    track_of tracks kind code t ->
    dict_get (dict_of kind (build tracks acc)) code <> None.
Proof.
  induction tracks as [|t0 rest IH]; intros acc code t (Hin & Hk & Hc).
  - destruct Hin.
  - destruct Hin as [->|Hin].
    + rewrite dict_of_build_cons. apply build_get_keeps.
      rewrite Hk. destruct kind; simpl; rewrite dict_get_set, Hc, String.eqb_refl;
        discriminate.
    + rewrite dict_of_build_cons. apply (IH _ _ t). now repeat split.
Qed.

(** The library's single-code lookup over both dictionaries. *)
Lemma library_find_one video_id c code :
  find_transcript (library_list video_id c) [code] =
  found_or_raise video_id
    (match dict_get (manually_created c) code with
     | Some t => Some t
     | None => dict_get (generated c) code
     end).
Proof.
  simpl. destruct (dict_get (manually_created c) code); [reflexivity|].
  now destruct (dict_get (generated c) code).
Qed.

(** A code no track carries is not found. *)
Lemma library_not_found video_id tracks code :
  (forall t, In t tracks -> language_code t <> code) ->
  exists m, find_transcript (library_list video_id (build tracks no_captions)) [code]
            = Raises (NoTranscriptFound m).
Proof.
  intros Hno. rewrite library_find_one.
  destruct (dict_get (manually_created (build tracks no_captions)) code) as [t|] eqn:M.
  { apply (build_get_sound false) in M as [(Hin & _ & Hc)|M]; [|discriminate].
    now destruct (Hno t Hin). }
  destruct (dict_get (generated (build tracks no_captions)) code) as [t|] eqn:G.
  { apply (build_get_sound true) in G as [(Hin & _ & Hc)|G]; [|discriminate].
    now destruct (Hno t Hin). }
  simpl. now eexists.
Qed.

(** A code some track carries, manual or generated, is found, and what
    is found is a track of that code. *)
Lemma library_found video_id tracks code t0 :
  In t0 tracks -> language_code t0 = code ->
  exists t, In t tracks /\ language_code t = code
    /\ find_transcript (library_list video_id (build tracks no_captions)) [code]
       = Returns t.
Proof.
  intros Hin Hc. rewrite library_find_one.
  destruct (dict_get (manually_created (build tracks no_captions)) code) as [t|] eqn:M.
  { apply (build_get_sound false) in M as [(Ht & _ & Hct)|M]; [|discriminate].
    exists t; now repeat split. }
  destruct (dict_get (generated (build tracks no_captions)) code) as [t|] eqn:G.
  { apply (build_get_sound true) in G as [(Ht & _ & Hct)|G]; [|discriminate].
    exists t; now repeat split. }
  exfalso. destruct (is_generated t0) eqn:K.
  - apply (build_get_complete true tracks no_captions code t0); [|exact G].
    now repeat split.
  - apply (build_get_complete false tracks no_captions code t0); [|exact M].
    now repeat split.
Qed.

(** The generated-only lookup finds nothing where the single-code
    lookups found nothing. *)
Lemma library_generated_not_found video_id c codes :
  (forall l, In l codes -> not_found (library_list video_id c) l) ->
  exists m, find_generated_transcript (library_list video_id c) codes
            = Raises (NoTranscriptFound m).
Proof.
  intros H. simpl.
  assert (E : lookup [generated c] codes = None).
  { induction codes as [|l codes IH]; [reflexivity|]. simpl.
    destruct (H l (or_introl eq_refl)) as [m Hm].
    rewrite library_find_one in Hm.
    destruct (dict_get (manually_created c) l); [discriminate|].
    destruct (dict_get (generated c) l); [discriminate|].
    apply IH. intros l' Hl'. apply H. now right. }
  rewrite E. simpl. now eexists.
Qed.

End LibraryList.

(** ** Claims on the transcript resolver *)

(** C1.  In the preferred search the languages are tried in the order of
    the list, and the first language for which the provider finds a track
    is selected: the result carries that language code.  For the provider
    library's list the language selected is the first of the list that is
    the code of some track, manual or generated.  With the languages
    [es], [en] and a single manual [en] track the language of the result
    is [en]. *)
Theorem preferred_language_order :
  (forall w request video_id tl before lang after t,
     VideoId.extract_video_id (TranscriptRequest.url request) = Returns video_id ->
     list_transcripts w video_id = Returns tl ->
     TranscriptRequest.languages request = before ++ lang :: after ->
     (forall l, In l before -> not_found tl l) ->
     Provider.find_transcript tl [lang] = Returns t ->
     search_preferred tl (TranscriptRequest.languages request) = Returns (Some t, lang)
     /\ forall cues, Provider.fetch t = Returns cues ->
          get_youtube_transcript w request =
          Returns (TranscriptResponse.mk video_id None
                     (PyStr.join " " (map Provider.text cues)) lang true None))
  /\ (forall w request video_id tracks before lang after,
        VideoId.extract_video_id (TranscriptRequest.url request) = Returns video_id ->
        list_transcripts w video_id =
          Returns (Provider.library_list video_id (Provider.build tracks Provider.no_captions)) ->
        TranscriptRequest.languages request = before ++ lang :: after ->
        (forall l t, In l before -> In t tracks -> Provider.language_code t <> l) ->
        (exists t, In t tracks /\ Provider.language_code t = lang) ->
        exists t, In t tracks /\ Provider.language_code t = lang
          /\ forall cues, Provider.fetch t = Returns cues ->
               get_youtube_transcript w request =
               Returns (TranscriptResponse.mk video_id None
                          (PyStr.join " " (map Provider.text cues)) lang true None))
  /\ (forall w url video_id en cues,
        VideoId.extract_video_id url = Returns video_id ->
        list_transcripts w video_id =
          Returns (Provider.library_list video_id (Provider.build [en] Provider.no_captions)) ->
        Provider.language_code en = "en" ->
        Provider.is_generated en = false ->
        Provider.fetch en = Returns cues ->
        get_youtube_transcript w (TranscriptRequest.mk url ["es"; "en"]) =
        Returns (TranscriptResponse.mk video_id None
                   (PyStr.join " " (map Provider.text cues)) "en" true None)).
Proof.
  assert (A : forall w request video_id tl before lang after t,
     VideoId.extract_video_id (TranscriptRequest.url request) = Returns video_id ->
     list_transcripts w video_id = Returns tl ->
     TranscriptRequest.languages request = before ++ lang :: after ->
     (forall l, In l before -> not_found tl l) ->
     Provider.find_transcript tl [lang] = Returns t ->
     search_preferred tl (TranscriptRequest.languages request) = Returns (Some t, lang)
     /\ forall cues, Provider.fetch t = Returns cues ->
          get_youtube_transcript w request =
          Returns (TranscriptResponse.mk video_id None
                     (PyStr.join " " (map Provider.text cues)) lang true None)).
  { intros w request video_id tl before lang after t Hid Hlist Hlangs Hbefore Hfound.
    assert (S : search_preferred tl (TranscriptRequest.languages request)
                = Returns (Some t, lang))
      by (rewrite Hlangs; now apply search_preferred_found).
    split; [exact S|]. intros cues Hfetch.
    now apply (transcript_try_selected w request video_id tl t lang cues). }
  assert (B : forall w request video_id tracks before lang after,
        VideoId.extract_video_id (TranscriptRequest.url request) = Returns video_id ->
        list_transcripts w video_id =
          Returns (Provider.library_list video_id (Provider.build tracks Provider.no_captions)) ->
        TranscriptRequest.languages request = before ++ lang :: after ->
        (forall l t, In l before -> In t tracks -> Provider.language_code t <> l) ->
        (exists t, In t tracks /\ Provider.language_code t = lang) ->
        exists t, In t tracks /\ Provider.language_code t = lang
          /\ forall cues, Provider.fetch t = Returns cues ->
               get_youtube_transcript w request =
               Returns (TranscriptResponse.mk video_id None
                          (PyStr.join " " (map Provider.text cues)) lang true None)).
  { intros w request video_id tracks before lang after Hid Hlist Hlangs Hbefore (t0 & Hin0 & Hc0).
    destruct (library_found video_id tracks lang t0 Hin0 Hc0) as (t & Hin & Hc & Hfound).
    exists t; repeat split; try assumption.
    apply (A w request video_id _ before lang after t Hid Hlist Hlangs); [|exact Hfound].
    intros l Hl. apply library_not_found. intros t' Ht'. now apply Hbefore. }
  repeat apply conj; [exact A | exact B |].
  intros w url video_id en cues Hid Hlist Hcode Hkind Hfetch.
  destruct (B w (TranscriptRequest.mk url ["es"; "en"]) video_id [en] ["es"] "en" []
              Hid Hlist eq_refl) as (t & Hin & _ & Hres).
  - intros l t [<-|[]] [<-|[]]. rewrite Hcode. discriminate.
  - exists en; split; [now left | exact Hcode].
  - destruct Hin as [<-|[]]. now apply Hres.
Qed.

(** C2.  When the provider finds no track for any language of the list,
    the resolver asks for a generated track for the whole list; when that
    gives a track, the result carries the language ["auto"] and the texts
    of the fetched entries joined by single spaces in their order.  When
    that finds nothing either, the first track of the provider's
    enumeration is taken and the result carries that track's own code. *)
Theorem fallback_after_preferred :
  forall w request video_id tl,
    VideoId.extract_video_id (TranscriptRequest.url request) = Returns video_id ->
    list_transcripts w video_id = Returns tl ->
    (forall l, In l (TranscriptRequest.languages request) -> not_found tl l) ->
    (forall t cues,
       Provider.find_generated_transcript tl (TranscriptRequest.languages request)
         = Returns t ->
       Provider.fetch t = Returns cues ->
       get_youtube_transcript w request =
       Returns (TranscriptResponse.mk video_id None
                  (PyStr.join " " (map Provider.text cues)) "auto" true None))
    /\ (forall m t rest cues,
          Provider.find_generated_transcript tl (TranscriptRequest.languages request)
            = Raises (NoTranscriptFound m) ->
          Provider.iter tl = t :: rest ->
          Provider.fetch t = Returns cues ->
          get_youtube_transcript w request =
          Returns (TranscriptResponse.mk video_id None
                     (PyStr.join " " (map Provider.text cues))
                     (Provider.language_code t) true None)).
Proof.
  intros w request video_id tl Hid Hlist Hnone.
  pose proof (search_preferred_none tl _ Hnone) as S.
  split.
  - intros t cues Hgen Hfetch. apply get_youtube_transcript_returned.
    rewrite (transcript_try_listed _ _ _ _ Hid Hlist), S. simpl.
    unfold search_fallback. simpl. rewrite Hgen. simpl. now rewrite Hfetch.
  - intros m t rest cues Hgen Hiter Hfetch. apply get_youtube_transcript_returned.
    rewrite (transcript_try_listed _ _ _ _ Hid Hlist), S. simpl.
    unfold search_fallback, first_available. simpl. rewrite Hgen. simpl.
    rewrite Hiter. simpl. now rewrite Hfetch.
Qed.

(** C6.  When the identifier is valid and the enumeration yields no track
    (so that no lookup finds anything), the result is a failure with the
    error "No transcript available", an empty transcript and the parsed
    identifier.  The provider library's list without tracks is such a
    list. *)
Theorem no_tracks_no_transcript :
  (forall w request video_id tl,
     VideoId.extract_video_id (TranscriptRequest.url request) = Returns video_id ->
     list_transcripts w video_id = Returns tl ->
     Provider.iter tl = [] ->
     (forall l, In l (TranscriptRequest.languages request) -> not_found tl l) ->
     (exists m, Provider.find_generated_transcript tl (TranscriptRequest.languages request)
                = Raises (NoTranscriptFound m)) ->
     get_youtube_transcript w request =
     Returns (TranscriptResponse.mk video_id None "" "" false
                (Some "No transcript available")))
  /\ (forall w request video_id,
        VideoId.extract_video_id (TranscriptRequest.url request) = Returns video_id ->
        list_transcripts w video_id =
          Returns (Provider.library_list video_id (Provider.build [] Provider.no_captions)) ->
        get_youtube_transcript w request =
        Returns (TranscriptResponse.mk video_id None "" "" false
                   (Some "No transcript available"))).
Proof.
  assert (A : forall w request video_id tl,
     VideoId.extract_video_id (TranscriptRequest.url request) = Returns video_id ->
     list_transcripts w video_id = Returns tl ->
     Provider.iter tl = [] ->
     (forall l, In l (TranscriptRequest.languages request) -> not_found tl l) ->
     (exists m, Provider.find_generated_transcript tl (TranscriptRequest.languages request)
                = Raises (NoTranscriptFound m)) ->
     get_youtube_transcript w request =
     Returns (TranscriptResponse.mk video_id None "" "" false
                (Some "No transcript available"))).
  { intros w request video_id tl Hid Hlist Hiter Hnone [m Hgen].
    apply get_youtube_transcript_returned.
    rewrite (transcript_try_listed _ _ _ _ Hid Hlist),
      (search_preferred_none tl _ Hnone). simpl.
    unfold search_fallback, first_available. simpl. rewrite Hgen. simpl.
    now rewrite Hiter. }
  split; [exact A|].
  intros w request video_id Hid Hlist.
  apply (A w request video_id _ Hid Hlist).
  - reflexivity.
  - intros l _. apply (library_not_found video_id [] l). intros t [].
  - apply library_generated_not_found.
    intros l _. apply (library_not_found video_id [] l). intros t [].
Qed.

Lemma extract_video_id_is_id (url g : string) :
  VideoId.extract_video_id url = Returns g -> VideoId.is_video_id g = true.
Proof.
  unfold VideoId.extract_video_id. simpl.
  destruct (VideoId.search_embedded url) as [g1|] eqn:E1.
  - intros [= <-].
    destruct (re_search_inv _ _ _ E1) as (pre & rest & _ & Hat & _).
    now apply alternatives_inv in Hat as (m & post & _ & _ & Hg).
  - destruct (VideoId.search_bare url) as [g2|] eqn:E2; [|discriminate].
    intros [= <-]. unfold VideoId.search_bare in E2.
    destruct (VideoId.id_chars 11 url) as [[g' rest]|] eqn:E; [|discriminate].
    destruct (VideoId.at_dollar rest); [|discriminate].
    injection E2 as ->.
    destruct (id_chars_inv _ _ _ _ E) as (_ & Hl & Ha).
    apply is_video_id_spec; now split.
Qed.

Lemma extract_video_id_raises (url : string) (e : exn) :
  VideoId.extract_video_id url = Raises e ->
  e = ValueError ("Could not extract video ID from: " ++ url)%string.
Proof.
  unfold VideoId.extract_video_id.
  destruct (VideoId.first_match VideoId.patterns url); [discriminate|].
  now intros [= <-].
Qed.

(** A result returned by the body of the [try] carries the parsed
    identifier, and when it is a failure it is the one for no track. *)
Lemma transcript_try_returns_inv w request r :
  transcript_try w request = Returns r ->
  VideoId.extract_video_id (TranscriptRequest.url request)
    = Returns (TranscriptResponse.video_id r)
  /\ (TranscriptResponse.success r = false ->
      TranscriptResponse.error r = Some "No transcript available"
      /\ TranscriptResponse.transcript r = "").
Proof.
  unfold transcript_try.
  destruct (VideoId.extract_video_id (TranscriptRequest.url request)) as [vid|];
    [simpl|discriminate].
  destruct (list_transcripts w vid) as [tl|]; [simpl|discriminate].
  destruct (search_preferred tl (TranscriptRequest.languages request)) as [st|];
    [simpl|discriminate].
  destruct (search_fallback tl (TranscriptRequest.languages request) st)
    as [[[t|] lang]|]; [simpl| |discriminate].
  - destruct (Provider.fetch t) as [cues|]; [simpl|discriminate].
    intros [= <-]. simpl. split; [reflexivity | discriminate].
  - intros [= <-]. simpl. now split.
Qed.

(** C5.  The three handlers give each failure its result: a
    [TranscriptsDisabled] fault gives the error "Transcripts are disabled
    for this video"; an input the parser rejects gives the parser's
    message, with the raw input as [video_id]; any other fault gives its
    string form.  In each case the endpoint returns a result with
    [success] false, and no fault leaves the endpoint. *)
Theorem failure_mapping :
  forall w request,
    (forall m, transcript_try w request = Raises (TranscriptsDisabled m) ->
       get_youtube_transcript w request =
       Returns (TranscriptResponse.mk (TranscriptRequest.url request) None "" "" false
                  (Some "Transcripts are disabled for this video")))
    /\ (forall e, VideoId.extract_video_id (TranscriptRequest.url request) = Raises e ->
          e = ValueError ("Could not extract video ID from: "
                          ++ TranscriptRequest.url request)%string
          /\ get_youtube_transcript w request =
             Returns (TranscriptResponse.mk (TranscriptRequest.url request) None "" "" false
                        (Some ("Could not extract video ID from: "
                               ++ TranscriptRequest.url request)%string)))
    /\ (forall e, transcript_try w request = Raises e ->
          is_TranscriptsDisabled e = false ->
          get_youtube_transcript w request =
          Returns (TranscriptResponse.mk (TranscriptRequest.url request) None "" "" false
                     (Some (str_of_exn e))))
    /\ (forall video_id e,
          VideoId.extract_video_id (TranscriptRequest.url request) = Returns video_id ->
          list_transcripts w video_id = Raises e ->
          transcript_try w request = Raises e)
    /\ (exists r, get_youtube_transcript w request = Returns r).
Proof.
  intros w request. repeat apply conj.
  - intros m H. now rewrite (get_youtube_transcript_raised _ _ _ H).
  - intros e H. pose proof (extract_video_id_raises _ _ H) as ->. split; [reflexivity|].
    assert (T : transcript_try w request
                = Raises (ValueError ("Could not extract video ID from: "
                                      ++ TranscriptRequest.url request)%string))
      by (unfold transcript_try; now rewrite H).
    now rewrite (get_youtube_transcript_raised _ _ _ T).
  - intros e H Hnot. rewrite (get_youtube_transcript_raised _ _ _ H).
    destruct e; try reflexivity. discriminate.
  - intros video_id e Hid Hlist. unfold transcript_try.
    rewrite Hid. simpl. now rewrite Hlist.
  - destruct (transcript_try w request) as [r|e] eqn:T.
    + exists r. now apply get_youtube_transcript_returned.
    + eexists. exact (get_youtube_transcript_raised _ _ _ T).
Qed.

(** C10.  A failure that comes from one of the handlers carries the raw
    request URL as [video_id], also when the identifier had been parsed
    before the fault; a result returned by the body of the [try] (a
    success, or the failure "No transcript available") carries the
    parsed identifier. *)
Theorem failure_video_id :
  forall w request,
    (forall e, transcript_try w request = Raises e ->
       exists r, get_youtube_transcript w request = Returns r
         /\ TranscriptResponse.success r = false
         /\ TranscriptResponse.video_id r = TranscriptRequest.url request)
    /\ (forall video_id e,
          VideoId.extract_video_id (TranscriptRequest.url request) = Returns video_id ->
          list_transcripts w video_id = Raises e ->
          exists r, get_youtube_transcript w request = Returns r
            /\ TranscriptResponse.success r = false
            /\ TranscriptResponse.video_id r = TranscriptRequest.url request)
    /\ (forall r, transcript_try w request = Returns r ->
          get_youtube_transcript w request = Returns r
          /\ VideoId.extract_video_id (TranscriptRequest.url request)
             = Returns (TranscriptResponse.video_id r)
          /\ VideoId.is_video_id (TranscriptResponse.video_id r) = true
          /\ (TranscriptResponse.success r = false ->
              TranscriptResponse.error r = Some "No transcript available")).
Proof.
  intros w request.
  assert (A : forall e, transcript_try w request = Raises e ->
       exists r, get_youtube_transcript w request = Returns r
         /\ TranscriptResponse.success r = false
         /\ TranscriptResponse.video_id r = TranscriptRequest.url request).
  { intros e H. eexists. split; [exact (get_youtube_transcript_raised _ _ _ H)|].
    now split. }
  repeat apply conj.
  - exact A.
  - intros video_id e Hid Hlist. apply (A e).
    unfold transcript_try. rewrite Hid. simpl. now rewrite Hlist.
  - intros r H.
    destruct (transcript_try_returns_inv _ _ _ H) as [Hid Hfail].
    repeat apply conj.
    + now apply get_youtube_transcript_returned.
    + exact Hid.
    + now apply extract_video_id_is_id in Hid.
    + intros Hs. now apply Hfail in Hs.
Qed.

(** ** The batch orchestrator *)

Lemma get_youtube_transcript_total (w : World) (request : TranscriptRequest.t) :
  exists r, get_youtube_transcript w request = Returns r.
Proof.
  destruct (transcript_try w request) as [r|e] eqn:T.
  - exists r. now apply get_youtube_transcript_returned.
  - eexists. exact (get_youtube_transcript_raised _ _ _ T).
Qed.

Lemma batch_loop_results (w : World) (languages : list string) (urls : list string) :
  forall acc, exists rs,
    batch_loop w languages urls acc = Returns (acc ++ rs)
    /\ Forall2 (fun url r =>
                  get_youtube_transcript w (TranscriptRequest.mk url languages)
                  = Returns r) urls rs.
Proof.
  induction urls as [|url urls IH]; intros acc.
  - exists []. split; [now rewrite app_nil_r | constructor].
  - destruct (get_youtube_transcript_total w (TranscriptRequest.mk url languages))
      as [r Hr].
    destruct (IH (acc ++ [r])) as (rs & Hloop & Hall).
    exists (r :: rs). split.
    + simpl. rewrite Hr. simpl. rewrite Hloop. now rewrite <- app_assoc.
    + now constructor.
Qed.

Lemma Forall2_nth_error {A B : Type} (R : A -> B -> Prop) (l : list A) (l' : list B) :
  Forall2 R l l' ->
  forall k a, nth_error l k = Some a -> exists b, nth_error l' k = Some b /\ R a b.
Proof.
  induction 1 as [|x y l l' Hxy _ IH]; intros [|k] a; simpl; try discriminate.
  - intros [= <-]. now exists y.
  - apply IH.
Qed.

(** C9.  For N URLs the batch returns N results and the count N; the
    result at position k is the resolver's own result for the URL at
    position k with the shared languages, whatever the other URLs are and
    whether or not their resolutions fail. *)
Theorem batch_results_in_order :
  forall w request,
    exists results,
      get_youtube_transcripts_batch w request
        = Returns (BatchResponse.mk results
                     (List.length (BatchTranscriptRequest.urls request)))
      /\ List.length results = List.length (BatchTranscriptRequest.urls request)
      /\ Forall2 (fun url r =>
                    get_youtube_transcript w
                      (TranscriptRequest.mk url (BatchTranscriptRequest.languages request))
                    = Returns r)
           (BatchTranscriptRequest.urls request) results
      /\ (forall request' results' total' k url,
            BatchTranscriptRequest.languages request'
              = BatchTranscriptRequest.languages request ->
            get_youtube_transcripts_batch w request'
              = Returns (BatchResponse.mk results' total') ->
            nth_error (BatchTranscriptRequest.urls request) k = Some url ->
            nth_error (BatchTranscriptRequest.urls request') k = Some url ->
            nth_error results' k = nth_error results k).
Proof.
  intros w request.
  destruct (batch_loop_results w (BatchTranscriptRequest.languages request)
              (BatchTranscriptRequest.urls request) []) as (rs & Hloop & Hall).
  simpl in Hloop. exists rs.
  assert (Hlen : List.length rs = List.length (BatchTranscriptRequest.urls request))
    by (symmetry; exact (Forall2_length Hall)).
  repeat apply conj.
  - unfold get_youtube_transcripts_batch. rewrite Hloop. simpl. now rewrite Hlen.
  - exact Hlen.
  - exact Hall.
  - intros request' results' total' k url Hlangs Hbatch Hk Hk'.
    destruct (batch_loop_results w (BatchTranscriptRequest.languages request')
                (BatchTranscriptRequest.urls request') []) as (rs' & Hloop' & Hall').
    simpl in Hloop'. unfold get_youtube_transcripts_batch in Hbatch.
    rewrite Hloop' in Hbatch. simpl in Hbatch. injection Hbatch as <- _.
    destruct (Forall2_nth_error _ _ _ Hall k url Hk) as (r & Hr & Hres).
    destruct (Forall2_nth_error _ _ _ Hall' k url Hk') as (r' & Hr' & Hres').
    rewrite Hlangs in Hres'. rewrite Hr, Hr'. congruence.
Qed.

(** ** Parsed markup *)

Section DomFacts.
Import Dom.

Lemma named_decompose_all (names names' : list string) (n : node) :
  named names (decompose_all names' n) = named names n.
Proof. now destruct n. Qed.

Lemma descendants_tag nm at_ c cs :
  descendants (Tag nm at_ (c :: cs)) =
  (c :: descendants c) ++ descendants (Tag nm at_ cs).
Proof. reflexivity. Qed.

Lemma decompose_all_tag names nm at_ c cs :
  decompose_all names (Tag nm at_ (c :: cs)) =
  match decompose_all names (Tag nm at_ cs) with
  | Tag nm' at' cs' =>
      Tag nm' at' (if named names c then cs' else decompose_all names c :: cs')
  | other => other
  end.
Proof. simpl. now destruct (named names c). Qed.

Lemma decompose_all_contents names nm at_ cs :
  exists cs', decompose_all names (Tag nm at_ cs) = Tag nm at_ cs'.
Proof. simpl. now eexists. Qed.

(** After the loop no element named in [names] is left below the root. *)
Lemma decompose_all_clean (names : list string) (n : node) :
  Forall (fun d => named names d = false) (descendants (decompose_all names n)).
Proof.
  induction n as [s|s|k s|nm at_ cs IH] using node_induction;
    [constructor | constructor | constructor |].
  induction cs as [|c cs IHcs]; [constructor|].
  inversion IH as [|? ? Hc Hcs]; subst.
  rewrite decompose_all_tag.
  destruct (decompose_all_contents names nm at_ cs) as [cs' E].
  specialize (IHcs Hcs). rewrite E in *.
  destruct (named names c) eqn:N; [exact IHcs|].
  rewrite descendants_tag. apply Forall_app; split; [|exact IHcs].
  constructor; [now rewrite named_decompose_all | exact Hc].
Qed.









(** *** The loop over the elements found *)

Lemma walk_tag here nm at_ cs :
  walk here (Tag nm at_ cs) = walk_children here 0 cs.
Proof. reflexivity. Qed.

Lemma walk_children_cons here i c cs :
  walk_children here i (c :: cs) =
  (here ++ [i], c) :: walk (here ++ [i]) c ++ walk_children here (S i) cs.
Proof. reflexivity. Qed.

Lemma remaining_tag taken here nm at_ cs :
  remaining taken here (Tag nm at_ cs) =
  Tag nm at_ (remaining_children taken here 0 cs).
Proof. reflexivity. Qed.

Lemma remaining_children_cons taken here i c cs :
  remaining_children taken here i (c :: cs) =
  if is_taken taken (here ++ [i])
  then remaining_children taken here (S i) cs
  else remaining taken (here ++ [i]) c :: remaining_children taken here (S i) cs.
Proof. reflexivity. Qed.

Lemma path_eqb_eq (p q : path) : path_eqb p q = true <-> p = q.
Proof.
  revert q; induction p as [|i p IH]; intros [|j q]; simpl;
    try (split; [discriminate | discriminate]); [tauto|].
  rewrite andb_true_iff, Nat.eqb_eq, IH. split.
  - now intros [-> ->].
  - now intros [= -> ->].
Qed.

Lemma is_taken_In (taken : list path) (p : path) :
  is_taken taken p = true <-> In p taken.
Proof.
  unfold is_taken. rewrite existsb_exists. split.
  - intros (q & Hq & E). apply path_eqb_eq in E. now subst.
  - intros H. exists p. split; [exact H | now apply path_eqb_eq].
Qed.

(** The places listed below [here] go through a child of [here]. *)
Lemma walk_children_paths here cs :
  Forall (fun c => forall here' p d, In (p, d) (walk here' c) ->
                     exists i rest, p = here' ++ i :: rest) cs ->
  forall i0 p d, In (p, d) (walk_children here i0 cs) ->
  exists i rest, p = here ++ i :: rest /\ i0 <= i.
Proof.
  induction 1 as [|c cs Hc _ IH]; intros i0 p d Hin; [destruct Hin|].
  rewrite walk_children_cons in Hin.
  destruct Hin as [[= <- <-]|Hin].
  - exists i0, []. now split.
  - apply in_app_or in Hin as [Hin|Hin].
    + destruct (Hc _ _ _ Hin) as (k & rest & ->).
      exists i0, (k :: rest). rewrite <- app_assoc. now split.
    + destruct (IH _ _ _ Hin) as (i & rest & -> & Hle).
      exists i, rest. split; [reflexivity | lia].
Qed.

Lemma walk_paths (n : node) :
  forall here p d, In (p, d) (walk here n) -> exists i rest, p = here ++ i :: rest.
Proof.
  induction n as [s|s|k s|nm at_ cs IH] using node_induction; intros here p d Hin;
    try (now destruct Hin).
  rewrite walk_tag in Hin.
  destruct (walk_children_paths here cs IH 0 p d Hin) as (i & rest & -> & _).
  now exists i, rest.
Qed.

(** A place is listed once: it is the place of one node. *)
Lemma walk_children_functional here cs :
  Forall (fun c => forall here' p d d',
            In (p, d) (walk here' c) -> In (p, d') (walk here' c) -> d = d') cs ->
  forall i0 p d d',
    In (p, d) (walk_children here i0 cs) ->
    In (p, d') (walk_children here i0 cs) -> d = d'.
Proof.
  induction 1 as [|c cs Hc Hcs IH]; intros i0 p d d' H1 H2; [destruct H1|].
  assert (Hpaths : Forall (fun c => forall here' p d, In (p, d) (walk here' c) ->
                             exists i rest, p = here' ++ i :: rest) cs)
    by (apply Forall_forall; intros c' _; apply walk_paths).
  rewrite walk_children_cons in H1, H2.
  assert (Hhead : forall e, In (p, e) (walk (here ++ [i0]) c) ->
                    p <> here ++ [i0]
                    /\ forall i rest, p = here ++ i :: rest -> i = i0).
  { intros e He. destruct (walk_paths _ _ _ _ He) as (k & rest & ->).
    rewrite <- app_assoc. split.
    - intros E. apply app_inv_head in E. discriminate.
    - intros i rest' E. apply app_inv_head in E. now injection E. }
  assert (Htail : forall e, In (p, e) (walk_children here (S i0) cs) ->
                    exists i rest, p = here ++ i :: rest /\ S i0 <= i)
    by (intros e He; exact (walk_children_paths here cs Hpaths _ _ _ He)).
  destruct H1 as [[= E1 <-]|H1], H2 as [[= E2 <-]|H2].
  - reflexivity.
  - exfalso. apply in_app_or in H2 as [H2|H2].
    + destruct (Hhead _ H2) as [Hne _]. now apply Hne.
    + destruct (Htail _ H2) as (i & rest & -> & Hle).
      apply app_inv_head in E1. injection E1 as -> _. lia.
  - exfalso. apply in_app_or in H1 as [H1|H1].
    + destruct (Hhead _ H1) as [Hne _]. now apply Hne.
    + destruct (Htail _ H1) as (i & rest & -> & Hle).
      apply app_inv_head in E2. injection E2 as -> _. lia.
  - apply in_app_or in H1 as [H1|H1]; apply in_app_or in H2 as [H2|H2].
    + exact (Hc _ _ _ _ H1 H2).
    + exfalso. destruct (Hhead _ H1) as [_ Hi].
      destruct (Htail _ H2) as (i & rest & E & Hle).
      specialize (Hi _ _ E). lia.
    + exfalso. destruct (Hhead _ H2) as [_ Hi].
      destruct (Htail _ H1) as (i & rest & E & Hle).
      specialize (Hi _ _ E). lia.
    + exact (IH _ _ _ _ H1 H2).
Qed.

Lemma walk_functional (n : node) :
  forall here p d d',
    In (p, d) (walk here n) -> In (p, d') (walk here n) -> d = d'.
Proof.
  induction n as [s|s|k s|nm at_ cs IH] using node_induction; intros here p d d' H1 H2;
    try (now destruct H1).
  rewrite walk_tag in H1, H2.
  exact (walk_children_functional here cs IH 0 p d d' H1 H2).
Qed.

(** When the elements taken out are those named in [names], what is
    left is the document without those elements. *)
Lemma remaining_children_named names taken here cs :
  Forall (fun c => forall here',
            (forall p d, In (p, d) (walk here' c) -> is_taken taken p = named names d) ->
            remaining taken here' c = decompose_all names c) cs ->
  forall i0,
    (forall p d, In (p, d) (walk_children here i0 cs) ->
                 is_taken taken p = named names d) ->
    remaining_children taken here i0 cs
    = flat_map (fun c => if named names c then [] else [decompose_all names c]) cs.
Proof.
  induction 1 as [|c cs Hc _ IH]; intros i0 Htaken; [reflexivity|].
  rewrite remaining_children_cons. simpl flat_map.
  assert (Hrest : remaining_children taken here (S i0) cs
                  = flat_map (fun c => if named names c then []
                                       else [decompose_all names c]) cs).
  { apply IH. intros p d Hin. apply Htaken.
    rewrite walk_children_cons. right. apply in_or_app. now right. }
  rewrite (Htaken (here ++ [i0]) c)
    by (rewrite walk_children_cons; now left).
  destruct (named names c); [exact Hrest|].
  simpl. rewrite Hrest. f_equal.
  apply Hc. intros p d Hin. apply Htaken.
  rewrite walk_children_cons. right. apply in_or_app. now left.
Qed.

Lemma remaining_named names taken (n : node) :
  forall here,
    (forall p d, In (p, d) (walk here n) -> is_taken taken p = named names d) ->
    remaining taken here n = decompose_all names n.
Proof.
  induction n as [s|s|k s|nm at_ cs IH] using node_induction; intros here Htaken;
    try reflexivity.
  rewrite remaining_tag. simpl decompose_all. f_equal.
  apply remaining_children_named; [exact IH|].
  intros p d Hin. apply Htaken. now rewrite walk_tag.
Qed.

Lemma fold_decompose (found taken : list path) (p : path) :
  In p (fold_left decompose found taken) <-> In p found \/ In p taken.
Proof.
  revert taken; induction found as [|el found IH]; intros taken; simpl.
  - tauto.
  - rewrite IH. unfold decompose. simpl. intuition.
Qed.

(** The loop takes out the elements named in [names], and only them. *)
Lemma found_taken names (n : node) (p : path) (d : node) :
  In (p, d) (walk [] n) ->
  is_taken (fold_left decompose (find_all_refs names n) []) p = named names d.
Proof.
  intros Hin. destruct (named names d) eqn:N.
  - apply is_taken_In, fold_decompose. left.
    unfold find_all_refs. apply in_map_iff. exists (p, d). split; [reflexivity|].
    apply filter_In. now split.
  - destruct (is_taken _ p) eqn:T; [|reflexivity].
    apply is_taken_In, fold_decompose in T as [T|[]].
    unfold find_all_refs in T. apply in_map_iff in T as ([q d'] & E & T).
    simpl in E. subst q. apply filter_In in T as [Hin' N']. simpl in N'.
    rewrite (walk_functional n [] p d d' Hin Hin') in N. congruence.
Qed.

(** What the loop leaves is the document without the elements named in
    [names] and all below them. *)
Lemma decompose_found_all (names : list string) (n : node) :
  decompose_found names n = decompose_all names n.
Proof.
  unfold decompose_found. apply remaining_named.
  intros p d Hin. now apply found_taken.
Qed.

Lemma subseq_refl {A : Type} (l : list A) : subseq l l.
Proof. induction l; now constructor. Qed.




Lemma select_with_is_tag (m : matcher) (root el : node) :
  In el (select_with m root) -> is_tag el = true.
Proof.
  unfold select_with. intros H. apply in_map_iff in H as ([p c] & <- & H).
  apply filter_In in H as [_ H]. simpl in H.
  now apply andb_true_iff in H as [H _].
Qed.


Lemma find_none (name : string) (n : node) :
  find name n = None -> Forall (fun d => named [name] d = false) (descendants n).
Proof.
  unfold find, find_all. generalize (descendants n) as l.
  induction l as [|d l IH]; simpl; [constructor|].
  destruct (named [name] d) eqn:N; simpl; [discriminate|].
  intros H. constructor; [exact N | now apply IH].
Qed.





End DomFacts.

(** ** The content extractor *)

(** What the two handlers of [scrape_url] answer. *)
Lemma scrape_handlers_answer (request : ScrapeRequest.t) (e : exn) :
  dispatch (scrape_handlers request) e =
  Returns (ScrapeResponse.mk (ScrapeRequest.url request) None "" false
             (Some (match e with
                    | HTTPStatusError _ code => ("HTTP error " ++ PyStr.of_nat code)%string
                    | _ => str_of_exn e
                    end))).
Proof. destruct e; reflexivity. Qed.

Lemma scrape_url_returned (w : World) (request : ScrapeRequest.t) r :
  scrape_try w request = Returns r -> scrape_url w request = Returns r.
Proof. apply try_except_returns. Qed.

Lemma scrape_url_raised (w : World) (request : ScrapeRequest.t) e :
  scrape_try w request = Raises e ->
  scrape_url w request =
  Returns (ScrapeResponse.mk (ScrapeRequest.url request) None "" false
             (Some (match e with
                    | HTTPStatusError _ code => ("HTTP error " ++ PyStr.of_nat code)%string
                    | _ => str_of_exn e
                    end))).
Proof.
  intros H. unfold scrape_url.
  rewrite (try_except_raises _ _ _ H). apply scrape_handlers_answer.
Qed.

(** The extractor once the page is fetched and parsed. *)
Lemma scrape_try_parsed w request response parsed :
  http_get w (ScrapeRequest.url request) = Returns response ->
  Http.raise_for_status response = Returns tt ->
  html_parser w (Http.text response) = Returns parsed ->
  scrape_try w request =
  (content <- extract_content w request (Dom.decompose_found NON_CONTENT parsed) ;;
   Returns (ScrapeResponse.mk (ScrapeRequest.url request)
              (match Dom.find "title" (Dom.decompose_found NON_CONTENT parsed) with
               | Some t => Dom.string_of t
               | None => None
               end)
              (PyStr.slice_to CONTENT_LIMIT content) true None)).
Proof.
  intros H1 H2 H3. unfold scrape_try.
  now rewrite (bind_returns _ _ _ H1), (bind_returns _ _ _ H2), (bind_returns _ _ _ H3).
Qed.

Lemma scrape_try_returns_inv w request r :
  scrape_try w request = Returns r ->
  exists response parsed full,
    http_get w (ScrapeRequest.url request) = Returns response
    /\ Http.raise_for_status response = Returns tt
    /\ html_parser w (Http.text response) = Returns parsed
    /\ extract_content w request (Dom.decompose_found NON_CONTENT parsed) = Returns full
    /\ ScrapeResponse.content r = PyStr.slice_to CONTENT_LIMIT full
    /\ ScrapeResponse.success r = true.
Proof.
  unfold scrape_try.
  destruct (http_get w (ScrapeRequest.url request)) as [response|] eqn:H1;
    [|discriminate].
  rewrite (bind_returns _ _ response eq_refl).
  destruct (Http.raise_for_status response) as [[]|] eqn:H2; [|discriminate].
  rewrite (bind_returns _ _ tt eq_refl).
  destruct (html_parser w (Http.text response)) as [parsed|] eqn:H3;
    [|discriminate].
  rewrite (bind_returns _ _ parsed eq_refl).
  destruct (extract_content w request (Dom.decompose_found NON_CONTENT parsed))
    as [full|] eqn:H4; [|discriminate].
  rewrite (bind_returns _ _ full eq_refl).
  intros [= <-]. exists response, parsed, full. now repeat split.
Qed.

Lemma given_selector_some request sel :
  ScrapeRequest.selector request = Some sel -> sel <> "" ->
  given_selector request = Some sel.
Proof.
  intros H Hne. unfold given_selector. rewrite H.
  destruct sel; [now destruct Hne | reflexivity].
Qed.

Lemma given_selector_none request :
  ScrapeRequest.selector request = None \/ ScrapeRequest.selector request = Some "" ->
  given_selector request = None.
Proof. unfold given_selector. now intros [-> | ->]. Qed.


(** C8.  Every result of the extractor has a content of at most 50,000
    characters.  The content of a success is the first 50,000 characters
    of the extracted text and nothing else; the content of a failure is
    empty. *)
Theorem content_bounded :
  forall w request,
    exists r,
      scrape_url w request = Returns r
      /\ (N.of_nat (String.length (ScrapeResponse.content r)) <= 50000)%N
      /\ (ScrapeResponse.success r = true ->
          exists response parsed full,
            http_get w (ScrapeRequest.url request) = Returns response
            /\ html_parser w (Http.text response) = Returns parsed
            /\ extract_content w request (Dom.decompose_found NON_CONTENT parsed)
               = Returns full
            /\ ScrapeResponse.content r = PyStr.slice_to 50000 full
            /\ (exists rest, full = (ScrapeResponse.content r ++ rest)%string)
            /\ N.of_nat (String.length (ScrapeResponse.content r))
               = N.min 50000 (N.of_nat (String.length full)))
      /\ (ScrapeResponse.success r = false -> ScrapeResponse.content r = "")
      /\ (forall e, scrape_try w request = Raises e ->
            ScrapeResponse.success r = false /\ ScrapeResponse.content r = "").
Proof.
  intros w request.
  destruct (scrape_try w request) as [r|e] eqn:T.
  - exists r.
    destruct (scrape_try_returns_inv _ _ _ T)
      as (response & parsed & full & H1 & _ & H3 & H4 & Hc & Hs).
    change 50000%N with CONTENT_LIMIT.
    repeat apply conj.
    + now apply scrape_url_returned.
    + rewrite Hc, slice_to_length. apply N.le_min_l.
    + intros _. exists response, parsed, full. repeat apply conj; try assumption.
      * rewrite Hc. apply slice_to_prefix.
      * rewrite Hc. apply slice_to_length.
    + rewrite Hs. discriminate.
    + discriminate.
  - eexists. split; [exact (scrape_url_raised _ _ _ T)|].
    cbn [ScrapeResponse.content ScrapeResponse.success String.length].
    repeat apply conj.
    + simpl. lia.
    + discriminate.
    + reflexivity.
    + intros _ _. now split.
Qed.

(** C3.  Both endpoints return a result for every input, whatever the
    collaborators do: no fault leaves the endpoint.  A fault raised in
    the body of the [try] gives a result with [success] false and the
    fault in the [error] field. *)
Theorem endpoints_total :
  forall w,
    (forall request, exists r,
       scrape_url w request = Returns r
       /\ forall e, scrape_try w request = Raises e ->
            ScrapeResponse.success r = false
            /\ ScrapeResponse.error r =
               Some (match e with
                     | HTTPStatusError _ code => ("HTTP error " ++ PyStr.of_nat code)%string
                     | _ => str_of_exn e
                     end))
    /\ (forall request, exists r,
          get_youtube_transcript w request = Returns r
          /\ forall e, transcript_try w request = Raises e ->
               TranscriptResponse.success r = false
               /\ TranscriptResponse.error r =
                  Some (match e with
                        | TranscriptsDisabled _ => "Transcripts are disabled for this video"
                        | _ => str_of_exn e
                        end)).
Proof.
  intros w. split; intros request.
  - destruct (scrape_try w request) as [r|e] eqn:T.
    + exists r. split; [now apply scrape_url_returned | discriminate].
    + eexists. split; [exact (scrape_url_raised _ _ _ T)|].
      intros e' [= <-]. now split.
  - destruct (transcript_try w request) as [r|e] eqn:T.
    + exists r. split; [now apply get_youtube_transcript_returned | discriminate].
    + eexists. split; [exact (get_youtube_transcript_raised _ _ _ T)|].
      intros e' [= <-]. now split.
Qed.

(** ** The claims on sample inputs *)

Lemma preferred_language_order_witness :
  get_youtube_transcript Sample.world
    (TranscriptRequest.mk "https://youtu.be/dQw4w9WgXcQ" ["es"; "en"])
  = Returns (TranscriptResponse.mk "dQw4w9WgXcQ" None "hello world" "en" true None).
Proof.
  destruct preferred_language_order as (_ & _ & Hexample).
  apply (Hexample Sample.world "https://youtu.be/dQw4w9WgXcQ" "dQw4w9WgXcQ"
           Sample.manual_en Sample.cues); reflexivity.
Defined.

Lemma fallback_after_preferred_witness :
  get_youtube_transcript Sample.world
    (TranscriptRequest.mk "https://youtu.be/CCCCCCCCCCC" ["es"; "ca"])
  = Returns (TranscriptResponse.mk "CCCCCCCCCCC" None "hello world" "auto" true None)
  /\ get_youtube_transcript Sample.world
       (TranscriptRequest.mk "https://youtu.be/DDDDDDDDDDD" ["es"; "ca"])
     = Returns (TranscriptResponse.mk "DDDDDDDDDDD" None "hello world" "de" true None).
Proof.
  split.
  - destruct (fallback_after_preferred Sample.world
                (TranscriptRequest.mk "https://youtu.be/CCCCCCCCCCC" ["es"; "ca"])
                "CCCCCCCCCCC" Sample.generated_only eq_refl eq_refl) as [Hauto _].
    + intros l _. exists "none". reflexivity.
    + apply (Hauto Sample.generated_en Sample.cues); reflexivity.
  - destruct (fallback_after_preferred Sample.world
                (TranscriptRequest.mk "https://youtu.be/DDDDDDDDDDD" ["es"; "ca"])
                "DDDDDDDDDDD"
                (Provider.library_list "DDDDDDDDDDD"
                   (Provider.build [Sample.manual_de] Provider.no_captions))
                eq_refl eq_refl) as [_ Hfirst].
    + intros l [<-|[<-|[]]]; eexists; reflexivity.
    + apply (Hfirst "No transcripts were found for DDDDDDDDDDD"
               Sample.manual_de [] Sample.cues); reflexivity.
Defined.

Lemma endpoints_total_witness :
  (exists r, scrape_url Sample.world (ScrapeRequest.mk "https://example.org/gone" None)
             = Returns r
     /\ ScrapeResponse.success r = false
     /\ ScrapeResponse.error r = Some "HTTP error 404")
  /\ (exists r, get_youtube_transcript Sample.world
                  (TranscriptRequest.mk "https://youtu.be/BBBBBBBBBBB" ["en"])
                = Returns r
        /\ TranscriptResponse.success r = false
        /\ TranscriptResponse.error r = Some "Transcripts are disabled for this video").
Proof.
  destruct (endpoints_total Sample.world) as [Hscrape Htranscript]. split.
  - destruct (Hscrape (ScrapeRequest.mk "https://example.org/gone" None))
      as (r & Hr & Hfault).
    exists r. split; [exact Hr|].
    exact (Hfault (HTTPStatusError "Status 404" 404) eq_refl).
  - destruct (Htranscript (TranscriptRequest.mk "https://youtu.be/BBBBBBBBBBB" ["en"]))
      as (r & Hr & Hfault).
    exists r. split; [exact Hr|].
    exact (Hfault (TranscriptsDisabled "Subtitles are disabled for this video") eq_refl).
Defined.


Lemma failure_mapping_witness :
  get_youtube_transcript Sample.world
    (TranscriptRequest.mk "https://youtu.be/BBBBBBBBBBB" ["en"])
  = Returns (TranscriptResponse.mk "https://youtu.be/BBBBBBBBBBB" None "" "" false
               (Some "Transcripts are disabled for this video"))
  /\ get_youtube_transcript Sample.world (TranscriptRequest.mk "not a video" ["en"])
     = Returns (TranscriptResponse.mk "not a video" None "" "" false
                  (Some "Could not extract video ID from: not a video"))
  /\ get_youtube_transcript Sample.world
       (TranscriptRequest.mk "https://youtu.be/FFFFFFFFFFF" ["en"])
     = Returns (TranscriptResponse.mk "https://youtu.be/FFFFFFFFFFF" None "" "" false
                  (Some "The video is no longer available")).
Proof.
  repeat apply conj.
  - destruct (failure_mapping Sample.world
                (TranscriptRequest.mk "https://youtu.be/BBBBBBBBBBB" ["en"]))
      as (Hdisabled & _).
    apply (Hdisabled "Subtitles are disabled for this video"). reflexivity.
  - destruct (failure_mapping Sample.world (TranscriptRequest.mk "not a video" ["en"]))
      as (_ & Hinvalid & _).
    destruct (Hinvalid (ValueError "Could not extract video ID from: not a video") eq_refl)
      as [_ Hresult].
    exact Hresult.
  - destruct (failure_mapping Sample.world
                (TranscriptRequest.mk "https://youtu.be/FFFFFFFFFFF" ["en"]))
      as (_ & _ & Hother & _).
    apply (Hother (OtherException "VideoUnavailable" "The video is no longer available"));
      reflexivity.
Defined.

Lemma no_tracks_no_transcript_witness :
  get_youtube_transcript Sample.world
    (TranscriptRequest.mk "https://youtu.be/AAAAAAAAAAA" ["en"; "es"; "ca"])
  = Returns (TranscriptResponse.mk "AAAAAAAAAAA" None "" "" false
               (Some "No transcript available")).
Proof.
  destruct no_tracks_no_transcript as [_ Hlibrary].
  apply Hlibrary; reflexivity.
Defined.



Lemma content_bounded_witness :
  exists r,
    scrape_url Sample.world (ScrapeRequest.mk "https://example.org/news" None)
    = Returns r
    /\ (N.of_nat (String.length (ScrapeResponse.content r)) <= 50000)%N.
Proof.
  destruct (content_bounded Sample.world
              (ScrapeRequest.mk "https://example.org/news" None))
    as (r & Hr & Hbound & _).
  exists r. split; [exact Hr | exact Hbound].
Defined.

Lemma batch_results_in_order_witness :
  exists results,
    get_youtube_transcripts_batch Sample.world
      (BatchTranscriptRequest.mk
         ["https://youtu.be/dQw4w9WgXcQ"; "not a video"; "https://youtu.be/AAAAAAAAAAA"]
         ["en"])
    = Returns (BatchResponse.mk results 3)
    /\ List.length results = 3.
Proof.
  destruct (batch_results_in_order Sample.world
              (BatchTranscriptRequest.mk
                 ["https://youtu.be/dQw4w9WgXcQ"; "not a video";
                  "https://youtu.be/AAAAAAAAAAA"]
                 ["en"])) as (results & Hbatch & Hlen & _).
  exists results. split; [exact Hbatch | exact Hlen].
Defined.

Lemma failure_video_id_witness :
  exists r,
    get_youtube_transcript Sample.world
      (TranscriptRequest.mk "https://youtu.be/BBBBBBBBBBB" ["en"])
    = Returns r
    /\ TranscriptResponse.success r = false
    /\ TranscriptResponse.video_id r = "https://youtu.be/BBBBBBBBBBB".
Proof.
  destruct (failure_video_id Sample.world
              (TranscriptRequest.mk "https://youtu.be/BBBBBBBBBBB" ["en"]))
    as (_ & Hparsed & _).
  apply (Hparsed "BBBBBBBBBBB" (TranscriptsDisabled "Subtitles are disabled for this video"));
    reflexivity.
Defined.

(** ** The endpoints on further sample inputs *)

(** Of two marker occurrences the left one gives the identifier. *)
Example leftmost_marker_gives_the_id :
  VideoId.extract_video_id "https://www.youtube.com/watch?v=AAAAAAAAAAA&v=BBBBBBBBBBB"
  = Returns "AAAAAAAAAAA".
Proof. reflexivity. Qed.

(** The bare pattern accepts one line feed after the identifier. *)
Example bare_id_before_final_newline :
  VideoId.extract_video_id ("dQw4w9WgXcQ" ++ PyStr.newline)%string = Returns "dQw4w9WgXcQ".
Proof. reflexivity. Qed.

Example twelve_characters_rejected :
  VideoId.extract_video_id "dQw4w9WgXcQx"
  = Raises (ValueError "Could not extract video ID from: dQw4w9WgXcQx").
Proof. reflexivity. Qed.

(** A generated track is found by its own code in the preferred search. *)
Example generated_track_found_by_code :
  get_youtube_transcript Sample.world
    (TranscriptRequest.mk "https://youtu.be/EEEEEEEEEEE" ["es"; "en"])
  = Returns (TranscriptResponse.mk "EEEEEEEEEEE" None "hello world" "en" true None).
Proof. reflexivity. Qed.

(** Without a selector the text of [body] is taken, one string per line;
    an empty selector is no selector. *)
Example scrape_without_selector :
  scrape_url Sample.world (ScrapeRequest.mk "https://example.org/news" None)
  = Returns (ScrapeResponse.mk "https://example.org/news" (Some "News")
               ("First" ++ PyStr.newline ++ "One" ++ PyStr.newline ++ "two"
                ++ PyStr.newline ++ "Second" ++ PyStr.newline ++ "Third")%string
               true None).
Proof. reflexivity. Qed.

Example scrape_with_empty_selector :
  scrape_url Sample.world (ScrapeRequest.mk "https://example.org/news" (Some ""))
  = scrape_url Sample.world (ScrapeRequest.mk "https://example.org/news" None).
Proof. reflexivity. Qed.

Example scrape_transport_fault :
  scrape_url Sample.world (ScrapeRequest.mk "https://example.invalid/" None)
  = Returns (ScrapeResponse.mk "https://example.invalid/" None "" false
               (Some "connection refused")).
Proof. reflexivity. Qed.

Example batch_with_invalid_item :
  get_youtube_transcripts_batch Sample.world
    (BatchTranscriptRequest.mk
       ["https://youtu.be/dQw4w9WgXcQ"; "not a video"; "https://youtu.be/AAAAAAAAAAA"]
       ["en"])
  = Returns
      (BatchResponse.mk
         [ TranscriptResponse.mk "dQw4w9WgXcQ" None "hello world" "en" true None;
           TranscriptResponse.mk "not a video" None "" "" false
             (Some "Could not extract video ID from: not a video");
           TranscriptResponse.mk "AAAAAAAAAAA" None "" "" false
             (Some "No transcript available") ]
         3).
Proof. reflexivity. Qed.

(** * Further properties *)

(** ** The video-identifier parser *)

(** A match of the embedded pattern needs a marker, of two characters at
    least, and eleven identifier characters. *)
Lemma search_embedded_short (url : string) :
  String.length url < 13 -> VideoId.search_embedded url = None.
Proof.
  intros Hlen. destruct (VideoId.search_embedded url) as [g|] eqn:E; [|reflexivity].
  exfalso. destruct (re_search_inv _ _ _ E) as (pre & rest & -> & Hat & _).
  apply alternatives_inv in Hat as (m & post & Hm & -> & Hg).
  apply is_video_id_spec in Hg as [Hg _].
  rewrite !length_append, Hg in Hlen.
  simpl in Hm. destruct Hm as [<-|[<-|[<-|[<-|[]]]]]; simpl in Hlen; lia.
Qed.

(** What the parser returns occurs in the input. *)
Lemma extract_video_id_occurs (url g : string) :
  VideoId.extract_video_id url = Returns g ->
  exists pre post, url = (pre ++ g ++ post)%string.
Proof.
  unfold VideoId.extract_video_id. simpl.
  destruct (VideoId.search_embedded url) as [g1|] eqn:E1.
  - intros [= <-].
    destruct (re_search_inv _ _ _ E1) as (pre & rest & -> & Hat & _).
    apply alternatives_inv in Hat as (m & post & _ & -> & _).
    exists (pre ++ m)%string, post. now rewrite append_assoc.
  - destruct (VideoId.search_bare url) as [g2|] eqn:E2; [|discriminate].
    intros [= <-]. unfold VideoId.search_bare in E2.
    destruct (VideoId.id_chars 11 url) as [[g' rest]|] eqn:E; [|discriminate].
    destruct (VideoId.at_dollar rest); [|discriminate].
    injection E2 as ->.
    destruct (id_chars_inv _ _ _ _ E) as (-> & _ & _).
    now exists ""%string, rest.
Qed.

Lemma extract_video_id_bare (id : string) :
  VideoId.is_video_id id = true -> VideoId.extract_video_id id = Returns id.
Proof.
  intros Hid. apply extract_second_pattern; [|now apply search_bare_video_id].
  apply search_embedded_id_chars. now apply is_video_id_spec in Hid.
Qed.

Lemma at_dollar_inv (rest : string) :
  VideoId.at_dollar rest = true -> rest = ""%string \/ rest = PyStr.newline.
Proof.
  destruct rest as [|c [|d rest]]; simpl; try discriminate.
  - now left.
  - intros H. apply Ascii.eqb_eq in H. subst c. now right.
Qed.

(** X1.  Whatever the parser returns is an identifier, eleven characters
    of the class, and it occurs in the input as it is. *)
Theorem extract_video_id_result :
  forall url g,
    VideoId.extract_video_id url = Returns g ->
    VideoId.is_video_id g = true
    /\ String.length g = 11
    /\ PyStr.all_chars VideoId.is_id_char g = true
    /\ exists pre post, url = (pre ++ g ++ post)%string.
Proof.
  intros url g H.
  pose proof (extract_video_id_is_id _ _ H) as Hid.
  destruct (proj1 (is_video_id_spec g) Hid) as [Hlen Hall].
  repeat split; try assumption.
  now apply extract_video_id_occurs.
Qed.

Lemma extract_video_id_result_witness :
  VideoId.is_video_id "dQw4w9WgXcQ" = true
  /\ String.length "dQw4w9WgXcQ" = 11
  /\ PyStr.all_chars VideoId.is_id_char "dQw4w9WgXcQ" = true
  /\ exists pre post,
       "https://youtu.be/dQw4w9WgXcQ?t=1"%string = (pre ++ "dQw4w9WgXcQ" ++ post)%string.
Proof.
  exact (extract_video_id_result "https://youtu.be/dQw4w9WgXcQ?t=1" "dQw4w9WgXcQ" eq_refl).
Defined.

(** X2.  An input of fewer than eleven characters, the empty input
    included, is rejected with a [ValueError] whose message ends with the
    input. *)
Theorem extract_video_id_short_input :
  forall url,
    String.length url < 11 ->
    VideoId.extract_video_id url
    = Raises (ValueError ("Could not extract video ID from: " ++ url)%string).
Proof.
  intros url Hlen.
  destruct (VideoId.extract_video_id url) as [g|e] eqn:E.
  - exfalso. destruct (extract_video_id_occurs _ _ E) as (pre & post & ->).
    apply extract_video_id_is_id, is_video_id_spec in E as [Hg _].
    rewrite !length_append, Hg in Hlen. lia.
  - now rewrite (extract_video_id_raises _ _ E).
Qed.

Lemma extract_video_id_short_input_witness :
  VideoId.extract_video_id ""
  = Raises (ValueError "Could not extract video ID from: ")
  /\ VideoId.extract_video_id "v=abc"
     = Raises (ValueError "Could not extract video ID from: v=abc").
Proof.
  split.
  - apply (extract_video_id_short_input ""). simpl. lia.
  - apply (extract_video_id_short_input "v=abc"). simpl. lia.
Defined.

(** X3.  The parser accepts its own result and returns it unchanged:
    parsing a second time changes nothing. *)
Theorem extract_video_id_idempotent :
  forall url g,
    VideoId.extract_video_id url = Returns g ->
    VideoId.extract_video_id g = Returns g.
Proof.
  intros url g H. apply extract_video_id_bare.
  now apply extract_video_id_is_id in H.
Qed.

Lemma extract_video_id_idempotent_witness :
  VideoId.extract_video_id "dQw4w9WgXcQ" = Returns "dQw4w9WgXcQ".
Proof.
  exact (extract_video_id_idempotent
           "https://www.youtube.com/watch?v=dQw4w9WgXcQ" "dQw4w9WgXcQ" eq_refl).
Defined.

(** X4.  Where no marker is followed by an identifier, the parser
    returns [g] exactly when the input is the identifier [g] alone or [g]
    followed by one line feed; an identifier followed by a line feed is
    always accepted, the line feed dropped. *)
Theorem bare_pattern_inputs :
  (forall url g,
     VideoId.search_embedded url = None ->
     (VideoId.extract_video_id url = Returns g <->
      VideoId.is_video_id g = true
      /\ (url = g \/ url = (g ++ PyStr.newline)%string)))
  /\ (forall id, VideoId.is_video_id id = true ->
        VideoId.extract_video_id (id ++ PyStr.newline)%string = Returns id).
Proof.
  assert (Hnl : forall id, VideoId.is_video_id id = true ->
                  VideoId.search_bare (id ++ PyStr.newline)%string = Some id).
  { intros id Hid. unfold VideoId.search_bare.
    now rewrite (id_chars_video_id id PyStr.newline Hid). }
  split.
  - intros url g Hnone. split.
    + intros H. split; [now apply extract_video_id_is_id in H|].
      unfold VideoId.extract_video_id in H. simpl in H. rewrite Hnone in H.
      destruct (VideoId.search_bare url) as [g2|] eqn:E2; [|discriminate].
      injection H as ->. unfold VideoId.search_bare in E2.
      destruct (VideoId.id_chars 11 url) as [[g' rest]|] eqn:E; [|discriminate].
      destruct (VideoId.at_dollar rest) eqn:D; [|discriminate].
      injection E2 as ->.
      destruct (id_chars_inv _ _ _ _ E) as (-> & _ & _).
      destruct (at_dollar_inv _ D) as [-> | ->];
        [left; apply append_empty_r | now right].
    + intros [Hid [-> | ->]].
      * now apply extract_video_id_bare.
      * apply extract_second_pattern; [exact Hnone | now apply Hnl].
  - intros id Hid. apply extract_second_pattern; [|now apply Hnl].
    apply search_embedded_short.
    apply is_video_id_spec in Hid as [Hlen _].
    rewrite length_append, Hlen. simpl. lia.
Qed.

Lemma bare_pattern_inputs_witness :
  VideoId.extract_video_id ("dQw4w9WgXcQ" ++ PyStr.newline)%string = Returns "dQw4w9WgXcQ"
  /\ (VideoId.extract_video_id "dQw4w9WgXcQ" = Returns "dQw4w9WgXcQ" <->
      VideoId.is_video_id "dQw4w9WgXcQ" = true
      /\ ("dQw4w9WgXcQ"%string = "dQw4w9WgXcQ"%string
          \/ "dQw4w9WgXcQ"%string = ("dQw4w9WgXcQ" ++ PyStr.newline)%string)).
Proof.
  destruct bare_pattern_inputs as [Hexact Hnewline]. split.
  - apply Hnewline. reflexivity.
  - apply Hexact. reflexivity.
Defined.

(** ** The transcript resolver *)

Lemma search_preferred_cons tl lang rest :
  search_preferred tl (lang :: rest) =
  match Provider.find_transcript tl [lang] with
  | Returns t => Returns (Some t, lang)
  | Raises e => if is_NoTranscriptFound e then search_preferred tl rest else Raises e
  end.
Proof. simpl. now destruct (Provider.find_transcript tl [lang]). Qed.

Lemma is_NoTranscriptFound_inv (e : exn) :
  is_NoTranscriptFound e = true -> exists m, e = NoTranscriptFound m.
Proof. destruct e; try discriminate. now eexists. Qed.

Lemma search_preferred_some_inv tl langs t lang :
  search_preferred tl langs = Returns (Some t, lang) ->
  exists before after,
    langs = before ++ lang :: after
    /\ (forall l, In l before -> not_found tl l)
    /\ Provider.find_transcript tl [lang] = Returns t.
Proof.
  induction langs as [|l langs IH]; [discriminate|].
  rewrite search_preferred_cons.
  destruct (Provider.find_transcript tl [l]) as [t'|e] eqn:F.
  - intros [= -> ->]. exists [], langs. repeat split; [|exact F]. intros l' [].
  - destruct (is_NoTranscriptFound e) eqn:N; [|discriminate].
    intros H. destruct (IH H) as (before & after & -> & Hb & Hf).
    exists (l :: before), after. repeat split; [|exact Hf].
    intros l' [<-|Hl']; [|now apply Hb].
    destruct (is_NoTranscriptFound_inv _ N) as [m ->]. now exists m.
Qed.

Lemma search_preferred_none_inv tl langs lang :
  search_preferred tl langs = Returns (None, lang) ->
  lang = ""%string /\ forall l, In l langs -> not_found tl l.
Proof.
  induction langs as [|l langs IH].
  - intros [= <-]. split; [reflexivity | intros l []].
  - rewrite search_preferred_cons.
    destruct (Provider.find_transcript tl [l]) as [t'|e] eqn:F; [discriminate|].
    destruct (is_NoTranscriptFound e) eqn:N; [|discriminate].
    intros H. destruct (IH H) as [-> Hall]. split; [reflexivity|].
    intros l' [<-|Hl']; [|now apply Hall].
    destruct (is_NoTranscriptFound_inv _ N) as [m ->]. now exists m.
Qed.

Lemma search_preferred_raises_inv tl langs e :
  search_preferred tl langs = Raises e ->
  is_NoTranscriptFound e = false
  /\ exists before lang after,
       langs = before ++ lang :: after
       /\ (forall l, In l before -> not_found tl l)
       /\ Provider.find_transcript tl [lang] = Raises e.
Proof.
  induction langs as [|l langs IH]; [discriminate|].
  rewrite search_preferred_cons.
  destruct (Provider.find_transcript tl [l]) as [t'|e'] eqn:F; [discriminate|].
  destruct (is_NoTranscriptFound e') eqn:N.
  - intros H. destruct (IH H) as (Hne & before & lang & after & -> & Hb & Hf).
    split; [exact Hne|]. exists (l :: before), lang, after. repeat split; [|exact Hf].
    intros l' [<-|Hl']; [|now apply Hb].
    destruct (is_NoTranscriptFound_inv _ N) as [m ->]. now exists m.
  - intros [= <-]. split; [exact N|]. exists [], l, langs. repeat split; [|exact F].
    intros l' [].
Qed.

Lemma search_preferred_fault tl before lang after e :
  (forall l, In l before -> not_found tl l) ->
  Provider.find_transcript tl [lang] = Raises e ->
  is_NoTranscriptFound e = false ->
  search_preferred tl (before ++ lang :: after) = Raises e.
Proof.
  intros Hbefore Hfault Hne. induction before as [|l before IH].
  - simpl app. rewrite search_preferred_cons, Hfault, Hne. reflexivity.
  - rewrite <- app_comm_cons, search_preferred_skip by (apply Hbefore; now left).
    apply IH. intros l' Hl'. apply Hbefore. now right.
Qed.

(** The results the body of the [try] can return. *)
Lemma transcript_try_returns_shape w request r :
  transcript_try w request = Returns r ->
  TranscriptResponse.title r = None
  /\ ((TranscriptResponse.success r = true /\ TranscriptResponse.error r = None)
      \/ (TranscriptResponse.success r = false
          /\ TranscriptResponse.transcript r = ""%string
          /\ TranscriptResponse.language r = ""%string
          /\ TranscriptResponse.error r = Some "No transcript available"%string)).
Proof.
  unfold transcript_try.
  destruct (VideoId.extract_video_id (TranscriptRequest.url request)) as [vid|];
    [simpl|discriminate].
  destruct (list_transcripts w vid) as [tl|]; [simpl|discriminate].
  destruct (search_preferred tl (TranscriptRequest.languages request)) as [st|];
    [simpl|discriminate].
  destruct (search_fallback tl (TranscriptRequest.languages request) st)
    as [[[t|] lang]|]; [simpl| |discriminate].
  - destruct (Provider.fetch t) as [cues|]; [simpl|discriminate].
    intros [= <-]. simpl. split; [reflexivity | now left].
  - intros [= <-]. simpl. split; [reflexivity | right; now repeat split].
Qed.

Lemma get_youtube_transcript_success_inv w request r :
  get_youtube_transcript w request = Returns r ->
  TranscriptResponse.success r = true ->
  transcript_try w request = Returns r.
Proof.
  intros H Hs. destruct (transcript_try w request) as [r0|e] eqn:T.
  - rewrite (get_youtube_transcript_returned _ _ _ T) in H. exact H.
  - rewrite (get_youtube_transcript_raised _ _ _ T) in H.
    injection H as <-. discriminate.
Qed.

(** X5.  In every result of the resolver the flag and the other fields
    agree: a success has no error and carries an identifier; a failure
    has an error message, an empty transcript and an empty language; the
    title is never set. *)
Theorem transcript_response_consistent :
  forall w request r,
    get_youtube_transcript w request = Returns r ->
    TranscriptResponse.title r = None
    /\ (TranscriptResponse.success r = true ->
        TranscriptResponse.error r = None
        /\ VideoId.is_video_id (TranscriptResponse.video_id r) = true)
    /\ (TranscriptResponse.success r = false ->
        TranscriptResponse.transcript r = ""%string
        /\ TranscriptResponse.language r = ""%string
        /\ exists message, TranscriptResponse.error r = Some message).
Proof.
  intros w request r H.
  destruct (transcript_try w request) as [r0|e] eqn:T.
  - rewrite (get_youtube_transcript_returned _ _ _ T) in H. injection H as <-.
    destruct (transcript_try_returns_shape _ _ _ T)
      as [Ht [[Hs He]|(Hs & Htr & Hl & He)]].
    + split; [exact Ht|]. split.
      * intros _. split; [exact He|].
        apply transcript_try_returns_inv in T as [T _].
        now apply extract_video_id_is_id in T.
      * intros Hs'. rewrite Hs in Hs'. discriminate.
    + split; [exact Ht|]. split.
      * intros Hs'. rewrite Hs in Hs'. discriminate.
      * intros _. split; [exact Htr|]. split; [exact Hl|]. eexists; exact He.
  - rewrite (get_youtube_transcript_raised _ _ _ T) in H. injection H as <-.
    simpl. split; [reflexivity|]. split; [discriminate|].
    intros _. split; [reflexivity|]. split; [reflexivity|]. eexists; reflexivity.
Qed.

Lemma transcript_response_consistent_witness :
  let r := TranscriptResponse.mk "https://youtu.be/BBBBBBBBBBB" None "" "" false
             (Some "Transcripts are disabled for this video") in
  TranscriptResponse.title r = None
  /\ (TranscriptResponse.success r = true ->
      TranscriptResponse.error r = None
      /\ VideoId.is_video_id (TranscriptResponse.video_id r) = true)
  /\ (TranscriptResponse.success r = false ->
      TranscriptResponse.transcript r = ""%string
      /\ TranscriptResponse.language r = ""%string
      /\ exists message, TranscriptResponse.error r = Some message).
Proof.
  exact (transcript_response_consistent Sample.world
           (TranscriptRequest.mk "https://youtu.be/BBBBBBBBBBB" ["en"]) _ eq_refl).
Defined.

(** X6.  What the preferred search ends with tells how it went.  A
    language selected is a language of the list, the provider found its
    track, and for every language before it the provider raised
    [NoTranscriptFound].  Nothing selected means that was so for every
    language.  A fault out of the search is the fault of the first language
    that did not raise [NoTranscriptFound], and is not one. *)
Theorem search_preferred_outcomes :
  forall tl langs,
    (forall t lang,
       search_preferred tl langs = Returns (Some t, lang) ->
       exists before after,
         langs = before ++ lang :: after
         /\ (forall l, In l before -> not_found tl l)
         /\ Provider.find_transcript tl [lang] = Returns t)
    /\ (forall lang,
          search_preferred tl langs = Returns (None, lang) ->
          lang = ""%string /\ forall l, In l langs -> not_found tl l)
    /\ (forall e,
          search_preferred tl langs = Raises e ->
          is_NoTranscriptFound e = false
          /\ exists before lang after,
               langs = before ++ lang :: after
               /\ (forall l, In l before -> not_found tl l)
               /\ Provider.find_transcript tl [lang] = Raises e).
Proof.
  intros tl langs. repeat apply conj.
  - intros t lang. apply search_preferred_some_inv.
  - intros lang. apply search_preferred_none_inv.
  - intros e. apply search_preferred_raises_inv.
Qed.

Lemma search_preferred_outcomes_witness :
  exists before after,
    ["es"; "en"; "ca"]%string = before ++ "en"%string :: after
    /\ (forall l, In l before ->
          not_found (Provider.library_list "dQw4w9WgXcQ"
                       (Provider.build [Sample.manual_en] Provider.no_captions)) l)
    /\ Provider.find_transcript
         (Provider.library_list "dQw4w9WgXcQ"
            (Provider.build [Sample.manual_en] Provider.no_captions)) ["en"%string]
       = Returns Sample.manual_en.
Proof.
  destruct (search_preferred_outcomes
              (Provider.library_list "dQw4w9WgXcQ"
                 (Provider.build [Sample.manual_en] Provider.no_captions))
              ["es"; "en"; "ca"]%string) as (Hsome & _ & _).
  exact (Hsome Sample.manual_en "en"%string eq_refl).
Defined.

Lemma transcript_try_fetch_fault w request video_id tl t lang e :
  VideoId.extract_video_id (TranscriptRequest.url request) = Returns video_id ->
  list_transcripts w video_id = Returns tl ->
  search_preferred tl (TranscriptRequest.languages request) = Returns (Some t, lang) ->
  Provider.fetch t = Raises e ->
  transcript_try w request = Raises e.
Proof.
  intros H1 H2 H3 H4.
  rewrite (transcript_try_listed _ _ _ _ H1 H2), H3. simpl. now rewrite H4.
Qed.

(** X7.  A fault while the selected track is fetched ends the
    resolution with a failure: the languages after the selected one are
    not tried, nor is any other track. *)
Theorem fetch_fault_not_retried :
  forall w request video_id tl before lang after t e,
    VideoId.extract_video_id (TranscriptRequest.url request) = Returns video_id ->
    list_transcripts w video_id = Returns tl ->
    TranscriptRequest.languages request = before ++ lang :: after ->
    (forall l, In l before -> not_found tl l) ->
    Provider.find_transcript tl [lang] = Returns t ->
    Provider.fetch t = Raises e ->
    get_youtube_transcript w request =
    Returns (TranscriptResponse.mk (TranscriptRequest.url request) None "" "" false
               (Some (match e with
                      | TranscriptsDisabled _ => "Transcripts are disabled for this video"
                      | _ => str_of_exn e
                      end))).
Proof.
  intros w request video_id tl before lang after t e Hid Hlist Hlangs Hbefore Hfound Hfetch.
  apply get_youtube_transcript_raised.
  apply (transcript_try_fetch_fault w request video_id tl t lang e Hid Hlist);
    [|exact Hfetch].
  rewrite Hlangs. now apply search_preferred_found.
Qed.

Lemma fetch_fault_not_retried_witness :
  get_youtube_transcript Sample2.world
    (TranscriptRequest.mk "https://youtu.be/GGGGGGGGGGG" ["ca"; "es"; "en"])
  = Returns (TranscriptResponse.mk "https://youtu.be/GGGGGGGGGGG" None "" "" false
               (Some "the provider refused the request")).
Proof.
  apply (fetch_fault_not_retried Sample2.world
           (TranscriptRequest.mk "https://youtu.be/GGGGGGGGGGG" ["ca"; "es"; "en"])
           "GGGGGGGGGGG"
           (Provider.library_list "GGGGGGGGGGG"
              (Provider.build [Sample2.broken_es; Sample.manual_en] Provider.no_captions))
           ["ca"%string] "es"%string ["en"%string] Sample2.broken_es
           (OtherException "RequestBlocked" "the provider refused the request"));
    try reflexivity.
  intros l [<-|[]]. eexists. reflexivity.
Defined.

(** X8.  A fault of the provider's lookup other than [NoTranscriptFound]
    ends the preferred search at the language where it occurs: the
    languages after it are not tried and the result is a failure with
    that fault. *)
Theorem search_fault_ends_resolution :
  forall w request video_id tl before lang after e,
    VideoId.extract_video_id (TranscriptRequest.url request) = Returns video_id ->
    list_transcripts w video_id = Returns tl ->
    TranscriptRequest.languages request = before ++ lang :: after ->
    (forall l, In l before -> not_found tl l) ->
    Provider.find_transcript tl [lang] = Raises e ->
    is_NoTranscriptFound e = false ->
    get_youtube_transcript w request =
    Returns (TranscriptResponse.mk (TranscriptRequest.url request) None "" "" false
               (Some (match e with
                      | TranscriptsDisabled _ => "Transcripts are disabled for this video"
                      | _ => str_of_exn e
                      end))).
Proof.
  intros w request video_id tl before lang after e Hid Hlist Hlangs Hbefore Hfault Hne.
  apply get_youtube_transcript_raised.
  rewrite (transcript_try_listed _ _ _ _ Hid Hlist), Hlangs.
  now rewrite (search_preferred_fault tl before lang after e Hbefore Hfault Hne).
Qed.

Lemma search_fault_ends_resolution_witness :
  get_youtube_transcript Sample2.world
    (TranscriptRequest.mk "https://youtu.be/HHHHHHHHHHH" ["de"; "fr"; "en"])
  = Returns (TranscriptResponse.mk "https://youtu.be/HHHHHHHHHHH" None "" "" false
               (Some "connection reset")).
Proof.
  apply (search_fault_ends_resolution Sample2.world
           (TranscriptRequest.mk "https://youtu.be/HHHHHHHHHHH" ["de"; "fr"; "en"])
           "HHHHHHHHHHH" Sample2.faulty_list
           ["de"%string] "fr"%string ["en"%string]
           (OtherException "ConnectError" "connection reset"));
    try reflexivity.
  intros l [<-|[]]. eexists. reflexivity.
Defined.

(** The entries of a built dictionary are tracks of the video. *)
Lemma dict_set_values (d : Provider.dict) (k : string) (v t : Provider.Transcript) :
  In t (Provider.values (Provider.dict_set d k v)) ->
  t = v \/ In t (Provider.values d).
Proof.
  induction d as [|[k0 v0] d IH]; simpl.
  - intros [<-|[]]. now left.
  - destruct (String.eqb k k0); simpl.
    + intros [<-|H]; [now left | right; now right].
    + intros [<-|H]; [right; now left|].
      destruct (IH H) as [->|H']; [now left | right; now right].
Qed.

Lemma build_values kind tracks :
  forall acc t,
    In t (Provider.values (Provider.dict_of kind (Provider.build tracks acc))) ->
    In t tracks \/ In t (Provider.values (Provider.dict_of kind acc)).
Proof.
  induction tracks as [|t0 rest IH]; intros acc t H; [now right|].
  rewrite dict_of_build_cons in H. apply IH in H as [H|H]; [left; now right|].
  destruct (Provider.is_generated t0), kind; simpl in H;
    try (now right);
    (apply dict_set_values in H as [->|H]; [left; now left | now right]).
Qed.

Lemma library_find_one_inv video_id tracks code t :
  Provider.find_transcript
    (Provider.library_list video_id (Provider.build tracks Provider.no_captions)) [code]
  = Returns t ->
  In t tracks /\ Provider.language_code t = code.
Proof.
  rewrite library_find_one.
  destruct (Provider.dict_get
              (Provider.manually_created (Provider.build tracks Provider.no_captions)) code)
    as [t'|] eqn:M.
  - intros [= <-].
    apply (build_get_sound false) in M as [(Hin & _ & Hc)|M]; [now split | discriminate].
  - destruct (Provider.dict_get
                (Provider.generated (Provider.build tracks Provider.no_captions)) code)
      as [t'|] eqn:G; [|discriminate].
    intros [= <-].
    apply (build_get_sound true) in G as [(Hin & _ & Hc)|G]; [now split | discriminate].
Qed.

Lemma library_iter_tracks video_id tracks t :
  In t (Provider.iter
          (Provider.library_list video_id (Provider.build tracks Provider.no_captions))) ->
  In t tracks.
Proof.
  simpl. intros H. apply in_app_or in H as [H|H].
  - now apply (build_values false) in H as [H|[]].
  - now apply (build_values true) in H as [H|[]].
Qed.

(** X9.  With the provider library's own list, a success always carries
    the language code of the very track whose entries it joins, and that
    track is one of the video's tracks: the language ["auto"] is given
    only when a track has that code. *)
Theorem library_language_is_track_code :
  forall w request video_id tracks r,
    VideoId.extract_video_id (TranscriptRequest.url request) = Returns video_id ->
    list_transcripts w video_id =
      Returns (Provider.library_list video_id (Provider.build tracks Provider.no_captions)) ->
    get_youtube_transcript w request = Returns r ->
    TranscriptResponse.success r = true ->
    exists t cues,
      In t tracks
      /\ Provider.fetch t = Returns cues
      /\ TranscriptResponse.language r = Provider.language_code t
      /\ TranscriptResponse.transcript r = PyStr.join " " (map Provider.text cues)
      /\ TranscriptResponse.video_id r = video_id.
Proof.
  intros w request video_id tracks r Hid Hlist Hget Hok.
  pose proof (get_youtube_transcript_success_inv _ _ _ Hget Hok) as T.
  rewrite (transcript_try_listed _ _ _ _ Hid Hlist) in T.
  set (tl := Provider.library_list video_id
               (Provider.build tracks Provider.no_captions)) in *.
  destruct (search_preferred tl (TranscriptRequest.languages request))
    as [[[t|] lang]|e] eqn:S; simpl in T; [| |discriminate].
  - destruct (search_preferred_some_inv _ _ _ _ S) as (before & after & _ & _ & Hfound).
    apply library_find_one_inv in Hfound as [Hin Hcode].
    destruct (Provider.fetch t) as [cues|] eqn:F; simpl in T; [|discriminate].
    injection T as <-. exists t, cues. simpl. now repeat split.
  - destruct (search_preferred_none_inv _ _ _ S) as [-> Hnone].
    destruct (library_generated_not_found video_id
                (Provider.build tracks Provider.no_captions) _ Hnone) as [m Hgen].
    unfold search_fallback in T. simpl fst in T. fold tl in Hgen.
    rewrite Hgen in T. simpl in T. unfold first_available in T.
    destruct (Provider.iter tl) as [|t rest] eqn:I; simpl in T.
    + injection T as <-. discriminate.
    + assert (Hin : In t tracks)
        by (apply (library_iter_tracks video_id); fold tl; rewrite I; now left).
      destruct (Provider.fetch t) as [cues|] eqn:F; simpl in T; [|discriminate].
      injection T as <-. exists t, cues. simpl. now repeat split.
Qed.

Lemma library_language_is_track_code_witness :
  exists t cues,
    In t [Sample.generated_en]
    /\ Provider.fetch t = Returns cues
    /\ "en"%string = Provider.language_code t
    /\ "hello world"%string = PyStr.join " " (map Provider.text cues)
    /\ "EEEEEEEEEEE"%string = "EEEEEEEEEEE"%string.
Proof.
  exact (library_language_is_track_code Sample.world
           (TranscriptRequest.mk "https://youtu.be/EEEEEEEEEEE" ["es"; "en"])
           "EEEEEEEEEEE" [Sample.generated_en]
           (TranscriptResponse.mk "EEEEEEEEEEE" None "hello world" "en" true None)
           eq_refl eq_refl eq_refl eq_refl).
Defined.

(** X10.  The language of a success is one of three: a language of the
    request for which the provider found a track, the word ["auto"] when
    the lookup of generated tracks found one, or the code of the first
    track of the enumeration. *)
Theorem resolved_language_origin :
  forall w request r,
    get_youtube_transcript w request = Returns r ->
    TranscriptResponse.success r = true ->
    exists video_id tl,
      VideoId.extract_video_id (TranscriptRequest.url request) = Returns video_id
      /\ list_transcripts w video_id = Returns tl
      /\ ((In (TranscriptResponse.language r) (TranscriptRequest.languages request)
           /\ exists t, Provider.find_transcript tl [TranscriptResponse.language r]
                        = Returns t)
          \/ (TranscriptResponse.language r = "auto"%string
              /\ exists t, Provider.find_generated_transcript tl
                             (TranscriptRequest.languages request) = Returns t)
          \/ (exists t rest, Provider.iter tl = t :: rest
                /\ TranscriptResponse.language r = Provider.language_code t)).
Proof.
  intros w request r Hget Hok.
  pose proof (get_youtube_transcript_success_inv _ _ _ Hget Hok) as T.
  unfold transcript_try in T.
  destruct (VideoId.extract_video_id (TranscriptRequest.url request)) as [vid|] eqn:Hid;
    [simpl in T|discriminate].
  destruct (list_transcripts w vid) as [tl|] eqn:Hlist; [simpl in T|discriminate].
  exists vid, tl. split; [reflexivity|]. split; [exact Hlist|].
  destruct (search_preferred tl (TranscriptRequest.languages request))
    as [[[t|] lang]|e] eqn:S; simpl in T; [| |discriminate].
  - destruct (search_preferred_some_inv _ _ _ _ S) as (before & after & Hl & _ & Hfound).
    destruct (Provider.fetch t) as [cues|]; simpl in T; [|discriminate].
    injection T as <-. simpl. left. split; [|now exists t].
    rewrite Hl. apply in_or_app. right. now left.
  - unfold search_fallback in T. simpl fst in T.
    destruct (Provider.find_generated_transcript tl (TranscriptRequest.languages request))
      as [t|e] eqn:G; simpl in T.
    + destruct (Provider.fetch t) as [cues|]; simpl in T; [|discriminate].
      injection T as <-. simpl. right. left. split; [reflexivity | now exists t].
    + destruct (is_NoTranscriptFound e); simpl in T; [|discriminate].
      unfold first_available in T.
      destruct (Provider.iter tl) as [|t rest] eqn:I; simpl in T.
      * injection T as <-. discriminate.
      * destruct (Provider.fetch t) as [cues|]; simpl in T; [|discriminate].
        injection T as <-. simpl. right. right. now exists t, rest.
Qed.

Lemma resolved_language_origin_witness :
  exists video_id tl,
    VideoId.extract_video_id "https://youtu.be/CCCCCCCCCCC" = Returns video_id
    /\ list_transcripts Sample.world video_id = Returns tl
    /\ ((In "auto"%string ["es"; "ca"]%string
         /\ exists t, Provider.find_transcript tl ["auto"%string] = Returns t)
        \/ ("auto"%string = "auto"%string
            /\ exists t, Provider.find_generated_transcript tl ["es"; "ca"]%string
                         = Returns t)
        \/ (exists t rest, Provider.iter tl = t :: rest
              /\ "auto"%string = Provider.language_code t)).
Proof.
  exact (resolved_language_origin Sample.world
           (TranscriptRequest.mk "https://youtu.be/CCCCCCCCCCC" ["es"; "ca"])
           (TranscriptResponse.mk "CCCCCCCCCCC" None "hello world" "auto" true None)
           eq_refl eq_refl).
Defined.

(** ** The content extractor *)

Lemma slice_to_fits (s : string) :
  forall n, (N.of_nat (String.length s) <= n)%N -> PyStr.slice_to n s = s.
Proof.
  induction s as [|c s IH]; intros n Hn; [reflexivity|].
  simpl PyStr.slice_to. simpl String.length in Hn. rewrite Nat2N.inj_succ in Hn.
  destruct (N.eqb_spec n 0) as [->|Hne]; [lia|].
  rewrite IH by lia. reflexivity.
Qed.

Lemma scrape_try_returns_fields w request r :
  scrape_try w request = Returns r ->
  ScrapeResponse.url r = ScrapeRequest.url request
  /\ ScrapeResponse.success r = true
  /\ ScrapeResponse.error r = None.
Proof.
  unfold scrape_try.
  destruct (http_get w (ScrapeRequest.url request)) as [response|]; [|discriminate].
  rewrite (bind_returns _ _ response eq_refl).
  destruct (Http.raise_for_status response) as [[]|]; [|discriminate].
  rewrite (bind_returns _ _ tt eq_refl).
  destruct (html_parser w (Http.text response)) as [parsed|]; [|discriminate].
  rewrite (bind_returns _ _ parsed eq_refl).
  destruct (extract_content w request (Dom.decompose_found NON_CONTENT parsed))
    as [full|]; [|discriminate].
  rewrite (bind_returns _ _ full eq_refl).
  intros [= <-]. now repeat split.
Qed.

(** X11.  In every result of the extractor the URL is the one of the
    request and the flag agrees with the other fields: a success has no
    error; a failure has an error message, no title and an empty
    content. *)
Theorem scrape_response_consistent :
  forall w request r,
    scrape_url w request = Returns r ->
    ScrapeResponse.url r = ScrapeRequest.url request
    /\ (ScrapeResponse.success r = true -> ScrapeResponse.error r = None)
    /\ (ScrapeResponse.success r = false ->
        ScrapeResponse.title r = None
        /\ ScrapeResponse.content r = ""%string
        /\ exists message, ScrapeResponse.error r = Some message).
Proof.
  intros w request r H.
  destruct (scrape_try w request) as [r0|e] eqn:T.
  - rewrite (scrape_url_returned _ _ _ T) in H. injection H as <-.
    destruct (scrape_try_returns_fields _ _ _ T) as (Hu & Hs & He).
    split; [exact Hu|]. split; [intros _; exact He|].
    intros Hs'. rewrite Hs in Hs'. discriminate.
  - rewrite (scrape_url_raised _ _ _ T) in H. injection H as <-.
    cbn [ScrapeResponse.url ScrapeResponse.success ScrapeResponse.error
         ScrapeResponse.title ScrapeResponse.content].
    split; [reflexivity|]. split; [discriminate|].
    intros _. split; [reflexivity|]. split; [reflexivity|]. eexists; reflexivity.
Qed.

Lemma scrape_response_consistent_witness :
  let r := ScrapeResponse.mk "https://example.org/gone" None "" false
             (Some "HTTP error 404") in
  ScrapeResponse.url r = "https://example.org/gone"%string
  /\ (ScrapeResponse.success r = true -> ScrapeResponse.error r = None)
  /\ (ScrapeResponse.success r = false ->
      ScrapeResponse.title r = None
      /\ ScrapeResponse.content r = ""%string
      /\ exists message, ScrapeResponse.error r = Some message).
Proof.
  exact (scrape_response_consistent Sample.world
           (ScrapeRequest.mk "https://example.org/gone" None) _ eq_refl).
Defined.

(** X12.  A text of at most 50,000 characters is returned whole; of a
    longer text exactly 50,000 characters are returned, and the result
    is still a success. *)
Theorem content_whole_when_it_fits :
  forall w request response parsed full,
    http_get w (ScrapeRequest.url request) = Returns response ->
    Http.raise_for_status response = Returns tt ->
    html_parser w (Http.text response) = Returns parsed ->
    extract_content w request (Dom.decompose_found NON_CONTENT parsed) = Returns full ->
    exists r,
      scrape_url w request = Returns r
      /\ ScrapeResponse.success r = true
      /\ ((N.of_nat (String.length full) <= 50000)%N -> ScrapeResponse.content r = full)
      /\ ((50000 < N.of_nat (String.length full))%N ->
          N.of_nat (String.length (ScrapeResponse.content r)) = 50000%N
          /\ ScrapeResponse.content r <> full).
Proof.
  intros w request response parsed full Hget Hstatus Hparse Hfull.
  eexists. split.
  { apply scrape_url_returned.
    rewrite (scrape_try_parsed w request response parsed Hget Hstatus Hparse), Hfull.
    reflexivity. }
  cbn [ScrapeResponse.success ScrapeResponse.content].
  change 50000%N with CONTENT_LIMIT.
  split; [reflexivity|]. split.
  - intros Hfits. now apply slice_to_fits.
  - intros Hlong.
    assert (Hlen : N.of_nat (String.length (PyStr.slice_to CONTENT_LIMIT full))
                   = CONTENT_LIMIT)
      by (rewrite slice_to_length; lia).
    split; [exact Hlen|].
    intros E. rewrite E in Hlen. lia.
Qed.

Lemma content_whole_when_it_fits_witness :
  exists r,
    scrape_url Sample.world (ScrapeRequest.mk "https://example.org/news" (Some "p"))
    = Returns r
    /\ ScrapeResponse.success r = true
    /\ ((N.of_nat (String.length "Onetwo") <= 50000)%N ->
        ScrapeResponse.content r = "Onetwo"%string)
    /\ ((50000 < N.of_nat (String.length "Onetwo"))%N ->
        N.of_nat (String.length (ScrapeResponse.content r)) = 50000%N
        /\ ScrapeResponse.content r <> "Onetwo"%string).
Proof.
  exact (content_whole_when_it_fits Sample.world
           (ScrapeRequest.mk "https://example.org/news" (Some "p"))
           (Http.mkResponse 200 "<html>...</html>") Sample.page "Onetwo"
           eq_refl eq_refl eq_refl eq_refl).
Defined.

Lemma decompose_all_same (names : list string) (n : Dom.node) :
  Forall (fun d => Dom.named names d = false) (Dom.descendants n) ->
  Dom.decompose_all names n = n.
Proof.
  induction n as [s|s|k s|nm at_ cs IH] using Dom.node_induction; try reflexivity.
  intros Hclean. simpl Dom.decompose_all. f_equal.
  induction cs as [|c cs IHcs]; [reflexivity|].
  inversion IH as [|? ? Hc Hcs]; subst.
  rewrite descendants_tag in Hclean. apply Forall_app in Hclean as [Hhead Hrest].
  inversion Hhead as [|? ? Hname Hbelow]; subst.
  simpl flat_map. rewrite Hname, (Hc Hbelow). simpl. f_equal.
  now apply IHcs.
Qed.

(** X13.  The loop changes nothing in a document that has none of the
    named elements, and running it a second time changes nothing. *)
Theorem decompose_found_stable :
  forall names n,
    (Forall (fun d => Dom.named names d = false) (Dom.descendants n) ->
     Dom.decompose_found names n = n)
    /\ Dom.decompose_found names (Dom.decompose_found names n)
       = Dom.decompose_found names n.
Proof.
  intros names n. split.
  - intros Hclean. rewrite decompose_found_all. now apply decompose_all_same.
  - rewrite !decompose_found_all. apply decompose_all_same, decompose_all_clean.
Qed.

Lemma decompose_found_stable_witness :
  Dom.decompose_found NON_CONTENT Sample2.page_without_title
  = Dom.decompose_found NON_CONTENT
      (Dom.decompose_found NON_CONTENT Sample2.page_without_title)
  /\ Dom.decompose_found NON_CONTENT
       (Sample.el "p" [ Sample.text "x"; Sample.el "b" [ Sample.text "y" ] ])
     = Sample.el "p" [ Sample.text "x"; Sample.el "b" [ Sample.text "y" ] ].
Proof.
  split.
  - symmetry. exact (proj2 (decompose_found_stable NON_CONTENT Sample2.page_without_title)).
  - apply (proj1 (decompose_found_stable NON_CONTENT
                    (Sample.el "p" [ Sample.text "x"; Sample.el "b" [ Sample.text "y" ] ]))).
    repeat constructor.
Defined.

(** X14.  With a selector given, a selector that matches no element
    gives a success with an empty content, and a selector the engine
    rejects gives a failure with the engine's message. *)
Theorem selector_without_result :
  forall w request response parsed sel,
    http_get w (ScrapeRequest.url request) = Returns response ->
    Http.raise_for_status response = Returns tt ->
    html_parser w (Http.text response) = Returns parsed ->
    ScrapeRequest.selector request = Some sel -> sel <> ""%string ->
    (forall m, css_compile w sel = Returns m ->
       Dom.select_with m (Dom.decompose_found NON_CONTENT parsed) = [] ->
       exists r, scrape_url w request = Returns r
         /\ ScrapeResponse.success r = true
         /\ ScrapeResponse.content r = ""%string)
    /\ (forall e, css_compile w sel = Raises e ->
          scrape_url w request =
          Returns (ScrapeResponse.mk (ScrapeRequest.url request) None "" false
                     (Some (match e with
                            | HTTPStatusError _ code =>
                                ("HTTP error " ++ PyStr.of_nat code)%string
                            | _ => str_of_exn e
                            end)))).
Proof.
  intros w request response parsed sel Hget Hstatus Hparse Hsel Hne.
  pose proof (scrape_try_parsed w request response parsed Hget Hstatus Hparse) as Htry.
  split.
  - intros m Hm Hnone. eexists. split.
    + apply scrape_url_returned. rewrite Htry. unfold extract_content.
      rewrite (given_selector_some _ _ Hsel Hne). unfold select.
      rewrite Hm. simpl bind at 2. rewrite Hnone. reflexivity.
    + now split.
  - intros e He. apply scrape_url_raised. rewrite Htry. unfold extract_content.
    rewrite (given_selector_some _ _ Hsel Hne). unfold select.
    now rewrite He.
Qed.

Lemma selector_without_result_witness :
  (exists r,
     scrape_url Sample2.world (ScrapeRequest.mk "https://example.org/plain" (Some "table"))
     = Returns r
     /\ ScrapeResponse.success r = true
     /\ ScrapeResponse.content r = ""%string)
  /\ scrape_url Sample2.world (ScrapeRequest.mk "https://example.org/plain" (Some "p["))
     = Returns (ScrapeResponse.mk "https://example.org/plain" None "" false
                  (Some "Invalid character")).
Proof.
  split.
  - destruct (selector_without_result Sample2.world
                (ScrapeRequest.mk "https://example.org/plain" (Some "table"))
                (Http.mkResponse 200 "<html>plain</html>") Sample2.page_without_title
                "table" eq_refl eq_refl eq_refl eq_refl ltac:(discriminate)) as [Hnone _].
    exact (Hnone (Sample.type_selector "table") eq_refl eq_refl).
  - destruct (selector_without_result Sample2.world
                (ScrapeRequest.mk "https://example.org/plain" (Some "p["))
                (Http.mkResponse 200 "<html>plain</html>") Sample2.page_without_title
                "p[" eq_refl eq_refl eq_refl eq_refl ltac:(discriminate)) as [_ Hfault].
    exact (Hfault (OtherException "SelectorSyntaxError" "Invalid character") eq_refl).
Defined.

(** X15.  Without a selector, absent or empty, the selector engine is
    not consulted: two worlds that differ in the engine only give the
    same result. *)
Theorem selector_engine_unused :
  forall w w' request,
    (forall url, http_get w url = http_get w' url) ->
    (forall text, html_parser w text = html_parser w' text) ->
    ScrapeRequest.selector request = None
    \/ ScrapeRequest.selector request = Some ""%string ->
    scrape_url w request = scrape_url w' request.
Proof.
  intros w w' request Hget Hparse Hnone.
  apply given_selector_none in Hnone.
  unfold scrape_url, scrape_try. rewrite Hget.
  destruct (http_get w' (ScrapeRequest.url request)) as [response|]; [|reflexivity].
  rewrite !(bind_returns _ _ response eq_refl).
  destruct (Http.raise_for_status response) as [[]|]; [|reflexivity].
  rewrite !(bind_returns _ _ tt eq_refl). rewrite Hparse.
  destruct (html_parser w' (Http.text response)) as [parsed|]; [|reflexivity].
  rewrite !(bind_returns _ _ parsed eq_refl).
  unfold extract_content. rewrite Hnone. reflexivity.
Qed.

Lemma selector_engine_unused_witness :
  scrape_url Sample.world (ScrapeRequest.mk "https://example.org/news" None)
  = scrape_url
      (mkWorld (http_get Sample.world) (html_parser Sample.world)
         (fun _ => Raises (OtherException "SelectorSyntaxError" "no engine"))
         (list_transcripts Sample.world))
      (ScrapeRequest.mk "https://example.org/news" None).
Proof.
  apply selector_engine_unused.
  - intros url. reflexivity.
  - intros text. reflexivity.
  - left. reflexivity.
Defined.

(** X16.  A response whose status is not a 2xx status gives a failure
    whose error is "HTTP error" followed by the status in decimal; the
    body of the response is not read. *)
Theorem http_status_failure :
  forall w request response,
    http_get w (ScrapeRequest.url request) = Returns response ->
    Http.status_code response < 200 \/ 299 < Http.status_code response ->
    scrape_url w request =
    Returns (ScrapeResponse.mk (ScrapeRequest.url request) None "" false
               (Some ("HTTP error " ++ PyStr.of_nat (Http.status_code response))%string)).
Proof.
  intros w request response Hget Hstatus.
  assert (Hraise : Http.raise_for_status response
                   = Raises (HTTPStatusError
                               ("Status " ++ PyStr.of_nat (Http.status_code response))%string
                               (Http.status_code response))).
  { unfold Http.raise_for_status.
    destruct (200 <=? Http.status_code response)%nat eqn:E1;
      destruct (Http.status_code response <=? 299)%nat eqn:E2; try reflexivity.
    apply Nat.leb_le in E1, E2. lia. }
  rewrite (scrape_url_raised w request _
             (eq_trans (bind_returns _ _ _ Hget) (bind_raises _ _ _ Hraise))).
  reflexivity.
Qed.

Lemma http_status_failure_witness :
  scrape_url Sample2.world (ScrapeRequest.mk "https://example.org/moved" (Some "p"))
  = Returns (ScrapeResponse.mk "https://example.org/moved" None "" false
               (Some "HTTP error 301"))
  /\ scrape_url Sample2.world (ScrapeRequest.mk "https://example.org/down" None)
     = Returns (ScrapeResponse.mk "https://example.org/down" None "" false
                  (Some "HTTP error 503")).
Proof.
  split.
  - apply (http_status_failure Sample2.world
             (ScrapeRequest.mk "https://example.org/moved" (Some "p"))
             (Http.mkResponse 301 "") eq_refl).
    right. simpl. lia.
  - apply (http_status_failure Sample2.world
             (ScrapeRequest.mk "https://example.org/down" None)
             (Http.mkResponse 503 "") eq_refl).
    right. simpl. lia.
Defined.





(** ** The resolver and the worlds *)

(** X19.  The resolver consults the provider for the parsed identifier
    only: an input the parser rejects gives the same result in every
    world, and two inputs with the same identifier go through the same
    search and fetch, so that the bodies of their [try] end alike. *)
Theorem resolver_depends_on_identifier :
  (forall w w' request e,
     VideoId.extract_video_id (TranscriptRequest.url request) = Raises e ->
     get_youtube_transcript w request = get_youtube_transcript w' request)
  /\ (forall w w' request video_id,
        VideoId.extract_video_id (TranscriptRequest.url request) = Returns video_id ->
        list_transcripts w video_id = list_transcripts w' video_id ->
        get_youtube_transcript w request = get_youtube_transcript w' request)
  /\ (forall w url url' languages video_id,
        VideoId.extract_video_id url = Returns video_id ->
        VideoId.extract_video_id url' = Returns video_id ->
        transcript_try w (TranscriptRequest.mk url languages)
        = transcript_try w (TranscriptRequest.mk url' languages)).
Proof.
  repeat apply conj.
  - intros w w' request e H. unfold get_youtube_transcript, transcript_try.
    now rewrite H.
  - intros w w' request video_id H Hlist.
    unfold get_youtube_transcript, transcript_try.
    rewrite H. simpl bind. now rewrite Hlist.
  - intros w url url' languages video_id H H'. unfold transcript_try.
    simpl TranscriptRequest.url. now rewrite H, H'.
Qed.

Lemma resolver_depends_on_identifier_witness :
  transcript_try Sample.world
    (TranscriptRequest.mk "https://youtu.be/dQw4w9WgXcQ" ["en"])
  = transcript_try Sample.world
      (TranscriptRequest.mk "https://www.youtube.com/watch?v=dQw4w9WgXcQ&t=10" ["en"])
  /\ get_youtube_transcript Sample.world (TranscriptRequest.mk "nothing" ["en"])
     = get_youtube_transcript Sample2.world (TranscriptRequest.mk "nothing" ["en"]).
Proof.
  destruct resolver_depends_on_identifier as (Hrejected & _ & Hsame). split.
  - apply (Hsame Sample.world _ _ ["en"%string] "dQw4w9WgXcQ"); reflexivity.
  - apply (Hrejected Sample.world Sample2.world (TranscriptRequest.mk "nothing" ["en"])
             (ValueError "Could not extract video ID from: nothing")).
    reflexivity.
Defined.

(** ** The batch orchestrator *)

Lemma batch_loop_acc (w : World) (languages urls : list string) :
  forall acc acc',
    batch_loop w languages urls (acc' ++ acc) =
    (rs <- batch_loop w languages urls acc ;; Returns (acc' ++ rs)).
Proof.
  induction urls as [|url urls IH]; intros acc acc'; [reflexivity|].
  simpl.
  destruct (get_youtube_transcript w (TranscriptRequest.mk url languages)) as [r|e];
    [simpl|reflexivity].
  rewrite <- app_assoc. apply IH.
Qed.

Lemma batch_loop_app (w : World) (languages urls urls' : list string) :
  forall acc,
    batch_loop w languages (urls ++ urls') acc =
    (rs <- batch_loop w languages urls acc ;; batch_loop w languages urls' rs).
Proof.
  induction urls as [|url urls IH]; intros acc; [reflexivity|].
  simpl.
  destruct (get_youtube_transcript w (TranscriptRequest.mk url languages)) as [r|e];
    [simpl|reflexivity].
  apply IH.
Qed.

Lemma batch_inv (w : World) (request : BatchTranscriptRequest.t) results total :
  get_youtube_transcripts_batch w request = Returns (BatchResponse.mk results total) ->
  batch_loop w (BatchTranscriptRequest.languages request)
    (BatchTranscriptRequest.urls request) [] = Returns results
  /\ total = List.length results.
Proof.
  unfold get_youtube_transcripts_batch.
  destruct (batch_loop w (BatchTranscriptRequest.languages request)
              (BatchTranscriptRequest.urls request) []) as [rs|]; [simpl|discriminate].
  intros [= <- <-]. now split.
Qed.

(** X20.  The batch of two lists of URLs put one after the other is the
    results of the first batch followed by the results of the second,
    and its count is the sum of the two counts. *)
Theorem batch_of_appended_urls :
  forall w languages urls urls' results results' total total',
    get_youtube_transcripts_batch w (BatchTranscriptRequest.mk urls languages)
      = Returns (BatchResponse.mk results total) ->
    get_youtube_transcripts_batch w (BatchTranscriptRequest.mk urls' languages)
      = Returns (BatchResponse.mk results' total') ->
    get_youtube_transcripts_batch w (BatchTranscriptRequest.mk (urls ++ urls') languages)
      = Returns (BatchResponse.mk (results ++ results') (total + total')).
Proof.
  intros w languages urls urls' results results' total total' H H'.
  apply batch_inv in H as [H ->]. apply batch_inv in H' as [H' ->].
  simpl in H, H'. unfold get_youtube_transcripts_batch. simpl.
  rewrite batch_loop_app, H. simpl.
  rewrite <- (app_nil_r results) at 1. rewrite batch_loop_acc, H'. simpl.
  now rewrite length_app.
Qed.

Lemma batch_of_appended_urls_witness :
  get_youtube_transcripts_batch Sample.world
    (BatchTranscriptRequest.mk
       (["https://youtu.be/dQw4w9WgXcQ"; "not a video"] ++ ["https://youtu.be/AAAAAAAAAAA"])
       ["en"])
  = Returns
      (BatchResponse.mk
         ([ TranscriptResponse.mk "dQw4w9WgXcQ" None "hello world" "en" true None;
            TranscriptResponse.mk "not a video" None "" "" false
              (Some "Could not extract video ID from: not a video") ]
          ++ [ TranscriptResponse.mk "AAAAAAAAAAA" None "" "" false
                 (Some "No transcript available") ])
         (2 + 1)).
Proof.
  apply batch_of_appended_urls; reflexivity.
Defined.

(** ** Text in classes of its own *)

(** Read as a region, [body] gives the text of the default classes only:
    the text inside [template] and [rt] is passed over. *)
Example region_passes_over_template_text :
  scrape_url Sample3.world (ScrapeRequest.mk "https://example.org/t" None)
  = Returns (ScrapeResponse.mk "https://example.org/t" None
               ("shown" ++ PyStr.newline ++ "kanji")%string true None).
Proof. reflexivity. Qed.

(** A selected [template] element gives the text of its own class, also
    from the elements below it. *)
Example selected_template_gives_its_text :
  scrape_url Sample3.world (ScrapeRequest.mk "https://example.org/t" (Some "template"))
  = Returns (ScrapeResponse.mk "https://example.org/t" None "kept apartinner" true None).
Proof. reflexivity. Qed.

(** A [p] inside [template] is selected, and has no text of the default
    classes. *)
Example selected_paragraphs :
  scrape_url Sample3.world (ScrapeRequest.mk "https://example.org/t" (Some "p"))
  = Returns (ScrapeResponse.mk "https://example.org/t" None
               ("shown" ++ PyStr.newline)%string true None).
Proof. reflexivity. Qed.
